(** * OpenSquirrel: the IR node model, the named-callable protocol and the
    A-B-A decomposition engine

    A shallow embedding of [opensquirrel/ir.py],
    [opensquirrel/decomposer/aba_decomposer.py] and
    [opensquirrel/default_measurements.py].

    Python floats are idealised as real numbers ([R]); every tolerance test
    of the source is kept as a decidable comparison on [R].  The statements
    over [R] are the ones that rounding does not change: results up to a
    tolerance, and errors that do not hinge on the last bit.  Where rounding
    decides whether the program raises, the unclamped [math.acos] of the
    engine, the module [Binary64] gives the same function over IEEE binary64
    numbers.  Python exceptions are values of [exn]; a function that can
    raise returns a [result].  Keyword arguments ([**kwargs]) are finite maps from parameter
    names to values. *)

From Stdlib Require Import Floats.
From Stdlib Require Import Reals Lra Lia ZArith List String.
From stdpp Require Import gmap strings.
Import ListNotations.

Set Warnings "-register-all".

Local Open Scope string_scope.
Local Open Scope R_scope.

(* ===================================================================== *)
(** * Exceptions and the error monad                                       *)
(* ===================================================================== *)

(** The Python exceptions that the modelled code can raise, each with its
    message. *)
Inductive exn : Type :=
| ValueError (msg : string)
| TypeError (msg : string)
| IndexError (msg : string)
| AttributeError (msg : string).

Inductive result (A : Type) : Type :=
| Ok (a : A)
| Raise (e : exn).

Arguments Ok {A} a.
Arguments Raise {A} e.

Definition rbind {A B : Type} (m : result A) (k : A -> result B) : result B :=
  match m with
  | Ok a => k a
  | Raise e => Raise e
  end.

Notation "'let*' x ':=' m 'in' k" := (rbind m (fun x => k))
  (at level 10, x pattern, m at level 100, k at level 200).

Definition raises {A : Type} (m : result A) : Prop :=
  exists e, m = Raise e.

Definition returns {A : Type} (m : result A) : Prop :=
  exists a, m = Ok a.

(* ===================================================================== *)
(** * Numeric primitives                                                   *)
(* ===================================================================== *)

Definition Rltb (x y : R) : bool := if Rlt_dec x y then true else false.
Definition Rleb (x y : R) : bool := if Rle_dec x y then true else false.
Definition Reqb (x y : R) : bool := if Req_dec_T x y then true else false.

(** Modelled from the spec: the constant [ATOL] of [opensquirrel/common.py],
    which is not part of the sources at hand; section 3 of the spec gives
    its scale as 1e-8. *)
Definition ATOL : R := 1 / 10 ^ 8.

(** Modelled from the spec: [normalize_angle] of [opensquirrel/common.py]
    (missing), which "maps any real angle into (-pi, pi] by modular
    reduction".  The multiple of [2 * PI] that is subtracted is the ceiling
    of [(x - PI) / (2 * PI)], written with the integer part [up]. *)
Definition normalize_angle (x : R) : R :=
  x - 2 * PI * IZR (1 - up ((PI - x) / (2 * PI))).

(** ** The functions of Python's [math] module that the engine calls *)

(** [math.acos] raises [ValueError] outside [-1, 1]. *)
Definition math_acos (x : R) : result R :=
  if Rleb (-1) x && Rleb x 1 then Ok (acos x)
  else Raise (ValueError "math domain error").

(** [math.sqrt] raises [ValueError] on a negative argument. *)
Definition math_sqrt (x : R) : result R :=
  if Rleb 0 x then Ok (sqrt x)
  else Raise (ValueError "math domain error").

(** [math.atan2 y x]: the angle of the point [(x, y)], in (-pi, pi]. *)
Definition math_atan2 (y x : R) : R :=
  if Rltb 0 x then atan (y / x)
  else if Rltb x 0 then
    (if Rleb 0 y then atan (y / x) + PI else atan (y / x) - PI)
  else if Rltb 0 y then PI / 2
  else if Rltb y 0 then - (PI / 2)
  else 0.

(** [math.copysign x y]: the magnitude of [x] with the sign of [y]. *)
Definition math_copysign (x y : R) : R :=
  if Rleb 0 y then Rabs x else - Rabs x.

(** [numpy.allclose a b rtol atol] on two arrays of the same length, as
    numpy documents it: every component satisfies
    [|a_i - b_i| <= atol + rtol * |b_i|].  numpy's defaults are
    [rtol = 1e-5] and [atol = 1e-8]. *)
Definition np_isclose (rtol atol a b : R) : bool :=
  Rleb (Rabs (a - b)) (atol + rtol * Rabs b).

Definition np_default_rtol : R := 1 / 10 ^ 5.
Definition np_default_atol : R := 1 / 10 ^ 8.

Fixpoint np_allclose (rtol atol : R) (a b : list R) : bool :=
  match a, b with
  | [], [] => true
  | x :: a', y :: b' => np_isclose rtol atol x y && np_allclose rtol atol a' b'
  | _, _ => false
  end.

(** [numpy.array_equal]: same shape and every component exactly equal. *)
Fixpoint np_array_equal (a b : list R) : bool :=
  match a, b with
  | [], [] => true
  | x :: a', y :: b' => Reqb x y && np_array_equal a' b'
  | _, _ => false
  end.

(* ===================================================================== *)
(** * The IR node model ([opensquirrel/ir.py])                             *)
(* ===================================================================== *)

Record Qubit : Type := mkQubit { qubit_index : Z }.
Record Bit : Type := mkBit { bit_index : Z }.

#[global] Instance Qubit_eq_dec : EqDecision Qubit.
Proof. solve_decision. Defined.

#[global] Instance Qubit_countable : Countable Qubit :=
  inj_countable' qubit_index mkQubit (fun q => match q with mkQubit _ => eq_refl end).

#[global] Instance Bit_eq_dec : EqDecision Bit.
Proof. solve_decision. Defined.

(** ** Axis: a 3-component vector, normalised when it is built *)

Record Axis : Type := mkAxis { axis_x : R; axis_y : R; axis_z : R }.

(** [Axis.value] and [Axis.__array__]: the three components as an array. *)
Definition Axis_value (a : Axis) : list R := [axis_x a; axis_y a; axis_z a].

(** [AxisLike = Union[ArrayLike, Axis]]; an array-like is given by its
    flattened components. *)
Inductive AxisLike : Type :=
| AxisLike_array (components : list R)
| AxisLike_axis (a : Axis).

(** [np.linalg.norm] of a vector, over the reals: the exact square root of
    the exact sum of squares, without the rounding, overflow and underflow
    of binary64. *)
Definition np_linalg_norm (v : list R) : R :=
  sqrt (fold_right (fun c acc => c * c + acc) 0 v).

(** [Axis._normalize_axis]: [axis / np.linalg.norm(axis)], over the reals:
    the stored components are exact quotients, where the program stores
    each quotient rounded to binary64. *)
Definition Axis_normalize_axis (v : list R) : list R :=
  map (fun c => c / np_linalg_norm v) v.

(** [Axis._parse_and_validate_axislike]. *)
Definition Axis_parse_and_validate_axislike (axis : AxisLike) : result Axis :=
  match axis with
  | AxisLike_axis a => Ok a
  | AxisLike_array v =>
      if negb (Nat.eqb (length v) 3) then
        Raise (ValueError "axis requires an ArrayLike of length 3")
      else
        match Axis_normalize_axis v with
        | [x; y; z] => Ok (mkAxis x y z)
        | _ => Raise (ValueError "axis requires an ArrayLike of length 3")
        end
  end.

(** [Axis.__init__]. *)
Definition Axis_init (axis : AxisLike) : result Axis :=
  Axis_parse_and_validate_axislike axis.

(** [Axis.__getitem__]: positional access to the value array. *)
Definition Axis_getitem (a : Axis) (index : nat) : result R :=
  match Axis_value a !! index with
  | Some c => Ok c
  | None => Raise (IndexError "index out of bounds")
  end.

(** [Axis.__eq__] on two [Axis] objects: [np.array_equal]. *)
Definition Axis_eq (a b : Axis) : bool :=
  np_array_equal (Axis_value a) (Axis_value b).

(** The invariant that construction establishes: Euclidean norm one. *)
Definition Axis_is_unit (a : Axis) : Prop :=
  axis_x a * axis_x a + axis_y a * axis_y a + axis_z a * axis_z a = 1.

(** ** Expressions *)

Inductive Expression : Type :=
| Float (value : R)
| Int (value : Z)
| EBit (b : Bit)
| EQubit (q : Qubit)
| EAxis (a : Axis).

(** ** Generators: the callables that the named wrappers register *)

(** A declared parameter: its name and, when it has one, its default. *)
Record Param (V : Type) : Type := mkParam {
  par_name : string;
  par_default : option V
}.

Arguments mkParam {V} _ _.
Arguments par_name {V} _.
Arguments par_default {V} _.

(** A generator function: its [__name__], its signature, and its body as a
    function of the values bound to the parameters, in declaration order. *)
Record Generator (N : Type) : Type := mkGenerator {
  gen_name : string;
  gen_params : list (Param Expression);
  gen_body : list Expression -> result N
}.

Arguments mkGenerator {N} _ _ _.
Arguments gen_name {N} _.
Arguments gen_params {N} _.
Arguments gen_body {N} _ _.

(** The metadata every Gate, Measure and Reset carries. *)
Class NodeMeta (N : Type) : Type := {
  node_generator : N -> option (Generator N);
  node_arguments : N -> option (list Expression);
  set_generator : N -> option (Generator N) -> N;
  set_arguments : N -> option (list Expression) -> N
}.

(** ** Measure and Reset *)

Inductive Measure : Type := mkMeasure {
  measure_generator : option (Generator Measure);
  measure_arguments : option (list Expression);
  measure_qubit : Qubit;
  measure_bit : Bit;
  measure_axis : Axis
}.

(** [Measure.__init__] with its parameters already bound. *)
Definition Measure_init (qubit : Qubit) (bit : Bit) (axis : AxisLike)
    (generator : option (Generator Measure))
    (arguments : option (list Expression)) : result Measure :=
  let* a := Axis_init axis in
  Ok (mkMeasure generator arguments qubit bit a).

(** [Measure.is_abstract]. *)
Definition Measure_is_abstract (m : Measure) : bool :=
  match measure_arguments m with None => true | Some _ => false end.

(** [Measure.__eq__] on two measurements: the qubits are compared by index
    (dataclass equality) and the axes by
    [np.allclose(self.axis, other.axis, atol=ATOL)], which keeps numpy's
    default relative tolerance. *)
Definition Measure_eq (self other : Measure) : bool :=
  bool_decide (measure_qubit self = measure_qubit other)
  && np_allclose np_default_rtol ATOL
       (Axis_value (measure_axis self)) (Axis_value (measure_axis other)).

Inductive Reset : Type := mkReset {
  reset_generator : option (Generator Reset);
  reset_arguments : option (list Expression);
  reset_qubit : Qubit
}.

(** [Reset.__eq__] on two resets. *)
Definition Reset_eq (self other : Reset) : bool :=
  bool_decide (reset_qubit self = reset_qubit other).

(** ** Gates *)

(** A numpy array of complex numbers: its shape and its entries in row-major
    order, each as (real part, imaginary part). *)
Record NDArray : Type := mkNDArray {
  nd_shape : list Z;
  nd_data : list (R * R)
}.

Record BlochSphereRotation_ (G : Type) : Type := mkBlochSphereRotation {
  bsr_generator : option (Generator G);
  bsr_arguments : option (list Expression);
  bsr_qubit : Qubit;
  bsr_axis : Axis;
  bsr_angle : R;
  bsr_phase : R
}.

Arguments mkBlochSphereRotation {G} _ _ _ _ _ _.
Arguments bsr_generator {G} _.
Arguments bsr_arguments {G} _.
Arguments bsr_qubit {G} _.
Arguments bsr_axis {G} _.
Arguments bsr_angle {G} _.
Arguments bsr_phase {G} _.

Record MatrixGate_ (G : Type) : Type := mkMatrixGate {
  mg_generator : option (Generator G);
  mg_arguments : option (list Expression);
  mg_matrix : NDArray;
  mg_operands : list Qubit
}.

Arguments mkMatrixGate {G} _ _ _ _.
Arguments mg_generator {G} _.
Arguments mg_arguments {G} _.
Arguments mg_matrix {G} _.
Arguments mg_operands {G} _.

(** The Gate family: the three concrete subclasses of [Gate]. *)
Inductive Gate : Type :=
| GBloch (r : BlochSphereRotation_ Gate)
| GMatrix (m : MatrixGate_ Gate)
| GControlled (generator : option (Generator Gate))
    (arguments : option (list Expression))
    (control_qubit : Qubit) (target_gate : Gate).

Abbreviation BlochSphereRotation := (BlochSphereRotation_ Gate).
Abbreviation MatrixGate := (MatrixGate_ Gate).

(** [Gate._check_repeated_qubit_operands]:
    [len(qubits) != len(set(qubits))]. *)
Definition check_repeated_qubit_operands (qubits : list Qubit) : bool :=
  negb (Nat.eqb (length qubits) (size (list_to_set qubits : gset Qubit))).

(** [get_qubit_operands]. *)
Fixpoint get_qubit_operands (g : Gate) : list Qubit :=
  match g with
  | GBloch r => [bsr_qubit r]
  | GMatrix m => mg_operands m
  | GControlled _ _ c t => c :: get_qubit_operands t
  end.

(** [BlochSphereRotation.__init__]. *)
Definition BlochSphereRotation_init (qubit : Qubit) (axis : AxisLike)
    (angle phase : R) (generator : option (Generator Gate))
    (arguments : option (list Expression)) : result BlochSphereRotation :=
  let* a := Axis_init axis in
  Ok (mkBlochSphereRotation generator arguments qubit a
        (normalize_angle angle) (normalize_angle phase)).

(** [BlochSphereRotation.__eq__] on two rotations.  The two axis tests are
    [np.allclose] with numpy's default tolerances; the second one is only
    reached when the first one fails. *)
Definition BlochSphereRotation_eq (self other : BlochSphereRotation) : bool :=
  if negb (bool_decide (bsr_qubit self = bsr_qubit other)) then false
  else if Rltb ATOL (Rabs (bsr_phase self - bsr_phase other)) then false
  else if np_allclose np_default_rtol np_default_atol
            (Axis_value (bsr_axis self)) (Axis_value (bsr_axis other))
       then Rltb (Rabs (bsr_angle self - bsr_angle other)) ATOL
  else if np_allclose np_default_rtol np_default_atol
            (Axis_value (bsr_axis self))
            (map Ropp (Axis_value (bsr_axis other)))
       then Rltb (Rabs (bsr_angle self + bsr_angle other)) ATOL
  else false.

(** [BlochSphereRotation.__eq__] on an arbitrary gate: anything that is not
    a rotation is unequal. *)
Definition BlochSphereRotation___eq__ (self : BlochSphereRotation)
    (other : Gate) : bool :=
  match other with
  | GBloch r => BlochSphereRotation_eq self r
  | _ => false
  end.

(** [BlochSphereRotation.is_identity]. *)
Definition BlochSphereRotation_is_identity (r : BlochSphereRotation) : bool :=
  Rltb (Rabs (bsr_angle r)) ATOL && Rltb (Rabs (bsr_phase r)) ATOL.

(** [MatrixGate.__init__]. *)
Definition MatrixGate_init (matrix : NDArray) (operands : list Qubit)
    (generator : option (Generator Gate))
    (arguments : option (list Expression)) : result MatrixGate :=
  if (length operands <? 2)%nat then
    Raise (ValueError "for 1q gates, please use BlochSphereRotation")
  else if check_repeated_qubit_operands operands then
    Raise (ValueError "control and target qubit cannot be the same")
  else if negb (bool_decide
                  (nd_shape matrix =
                   [Z.shiftl 1 (Z.of_nat (length operands));
                    Z.shiftl 1 (Z.of_nat (length operands))])) then
    Raise (ValueError "incorrect matrix shape.")
  else Ok (mkMatrixGate generator arguments matrix operands).

(** [ControlledGate.__init__]. *)
Definition ControlledGate_init (control_qubit : Qubit) (target_gate : Gate)
    (generator : option (Generator Gate))
    (arguments : option (list Expression)) : result Gate :=
  if check_repeated_qubit_operands
       (control_qubit :: get_qubit_operands target_gate) then
    Raise (ValueError "control and target qubit cannot be the same")
  else Ok (GControlled generator arguments control_qubit target_gate).

(** The complex modulus, and [np.allclose] on complex arrays. *)
Definition Cmod (c : R * R) : R := sqrt (fst c * fst c + snd c * snd c).

Definition Cminus (c d : R * R) : R * R := (fst c - fst d, snd c - snd d).

Fixpoint np_allclose_complex (rtol atol : R) (a b : list (R * R)) : bool :=
  match a, b with
  | [], [] => true
  | x :: a', y :: b' =>
      Rleb (Cmod (Cminus x y)) (atol + rtol * Cmod y)
      && np_allclose_complex rtol atol a' b'
  | _, _ => false
  end.

(** The entries of [np.eye(n)] in row-major order. *)
Definition np_eye_data (n : nat) : list (R * R) :=
  flat_map (fun i => map (fun j => if Nat.eqb i j then (1, 0) else (0, 0))
                         (seq 0 n))
           (seq 0 n).

(** [is_identity] of the three gate classes. *)
Fixpoint Gate_is_identity (g : Gate) : bool :=
  match g with
  | GBloch r => BlochSphereRotation_is_identity r
  | GMatrix m =>
      np_allclose_complex np_default_rtol np_default_atol
        (nd_data (mg_matrix m)) (np_eye_data (2 ^ length (mg_operands m)))
  | GControlled _ _ _ t => Gate_is_identity t
  end.

#[global] Instance Measure_meta : NodeMeta Measure := {
  node_generator := measure_generator;
  node_arguments := measure_arguments;
  set_generator m g :=
    mkMeasure g (measure_arguments m) (measure_qubit m) (measure_bit m)
      (measure_axis m);
  set_arguments m a :=
    mkMeasure (measure_generator m) a (measure_qubit m) (measure_bit m)
      (measure_axis m)
}.

#[global] Instance Reset_meta : NodeMeta Reset := {
  node_generator := reset_generator;
  node_arguments := reset_arguments;
  set_generator r g := mkReset g (reset_arguments r) (reset_qubit r);
  set_arguments r a := mkReset (reset_generator r) a (reset_qubit r)
}.

Definition Gate_generator (g : Gate) : option (Generator Gate) :=
  match g with
  | GBloch r => bsr_generator r
  | GMatrix m => mg_generator m
  | GControlled gen _ _ _ => gen
  end.

Definition Gate_arguments (g : Gate) : option (list Expression) :=
  match g with
  | GBloch r => bsr_arguments r
  | GMatrix m => mg_arguments m
  | GControlled _ a _ _ => a
  end.

Definition Gate_set_generator (g : Gate) (gen : option (Generator Gate)) : Gate :=
  match g with
  | GBloch r =>
      GBloch (mkBlochSphereRotation gen (bsr_arguments r) (bsr_qubit r)
                (bsr_axis r) (bsr_angle r) (bsr_phase r))
  | GMatrix m =>
      GMatrix (mkMatrixGate gen (mg_arguments m) (mg_matrix m) (mg_operands m))
  | GControlled _ a c t => GControlled gen a c t
  end.

Definition Gate_set_arguments (g : Gate) (a : option (list Expression)) : Gate :=
  match g with
  | GBloch r =>
      GBloch (mkBlochSphereRotation (bsr_generator r) a (bsr_qubit r)
                (bsr_axis r) (bsr_angle r) (bsr_phase r))
  | GMatrix m =>
      GMatrix (mkMatrixGate (mg_generator m) a (mg_matrix m) (mg_operands m))
  | GControlled gen _ c t => GControlled gen a c t
  end.

#[global] Instance Gate_meta : NodeMeta Gate := {
  node_generator := Gate_generator;
  node_arguments := Gate_arguments;
  set_generator := Gate_set_generator;
  set_arguments := Gate_set_arguments
}.

(** [Gate.is_anonymous]. *)
Definition Gate_is_anonymous (g : Gate) : bool :=
  match Gate_arguments g with None => true | Some _ => false end.

(* ===================================================================== *)
(** * Calling a Python function: binding arguments to parameters           *)
(* ===================================================================== *)

Section Call.
Context {V : Type}.

Definition param_names (params : list (Param V)) : list string :=
  map par_name params.

(** Binding a call [f] of [args] and [kwargs] for a signature of positional-or-keyword
    parameters: positional arguments fill the leading parameters, keyword
    arguments fill parameters by name, defaults fill what is left.  The
    result lists the bound values in declaration order. *)
Fixpoint bind_params (params : list (Param V)) (args : list V)
    (kwargs : gmap string V) : result (list V) :=
  match params with
  | [] =>
      match args with
      | [] => Ok []
      | _ :: _ => Raise (TypeError "too many positional arguments")
      end
  | p :: ps =>
      match args with
      | a :: args' =>
          match kwargs !! par_name p with
          | Some _ => Raise (TypeError "got multiple values for argument")
          | None =>
              let* vs := bind_params ps args' kwargs in Ok (a :: vs)
          end
      | [] =>
          match kwargs !! par_name p with
          | Some v => let* vs := bind_params ps [] kwargs in Ok (v :: vs)
          | None =>
              match par_default p with
              | Some d =>
                  let* vs := bind_params ps [] kwargs in Ok (d :: vs)
              | None => Raise (TypeError "missing required argument")
              end
          end
      end
  end.

(** A keyword that names no parameter is rejected before anything else. *)
Definition bind_arguments (params : list (Param V)) (args : list V)
    (kwargs : gmap string V) : result (list V) :=
  if bool_decide (dom kwargs ⊆ list_to_set (param_names params)) then
    bind_params params args kwargs
  else Raise (TypeError "got an unexpected keyword argument").

(** The loop of the named wrappers over
    [inspect.signature(generator).parameters.values()]: a parameter whose
    name is a key of [kwargs] takes that value, any other parameter takes
    [args[arg_index]] and advances [arg_index]. *)
Fixpoint collect_all_args (params : list (Param V)) (args : list V)
    (kwargs : gmap string V) (arg_index : nat) : result (list V) :=
  match params with
  | [] => Ok []
  | par :: rest =>
      match kwargs !! par_name par with
      | Some v =>
          let* all_args := collect_all_args rest args kwargs arg_index in
          Ok (v :: all_args)
      | None =>
          match args !! arg_index with
          | Some v =>
              let* all_args :=
                collect_all_args rest args kwargs (S arg_index) in
              Ok (v :: all_args)
          | None => Raise (IndexError "tuple index out of range")
          end
      end
  end.
End Call.

(* ===================================================================== *)
(** * The named-callable wrappers                                          *)
(* ===================================================================== *)

(** The call of a generator with positional [args] and keyword [kwargs]. *)
Definition call_generator {N : Type} (g : Generator N)
    (args : list Expression) (kwargs : gmap string Expression) : result N :=
  let* bound := bind_arguments (gen_params g) args kwargs in
  gen_body g bound.

(** The body shared by [named_gate], [named_measurement] and [named_reset]:
    call the generator, record the wrapper as the node's generator, rebuild
    the argument tuple and record it. *)
Definition named_callable {N : Type} `{NodeMeta N} (g : Generator N)
    (args : list Expression) (kwargs : gmap string Expression) : result N :=
  let* result := call_generator g args kwargs in
  let result := set_generator result (Some g) in
  let* all_args := collect_all_args (gen_params g) args kwargs 0 in
  Ok (set_arguments result (Some all_args)).

Definition named_gate (gate_generator : Generator Gate) :=
  named_callable gate_generator.

Definition named_measurement (measurement_generator : Generator Measure) :=
  named_callable measurement_generator.

Definition named_reset (reset_generator : Generator Reset) :=
  named_callable reset_generator.

(** Calling [node.generator] with [node.arguments] unpacked as positional
    arguments. *)
Definition invoke_generator {N : Type} `{NodeMeta N} (node : N) : result N :=
  match node_generator node, node_arguments node with
  | Some g, Some arguments => named_callable g arguments ∅
  | _, _ => Raise (TypeError "'NoneType' object is not callable")
  end.

(* ===================================================================== *)
(** * [opensquirrel/default_measurements.py]                               *)
(* ===================================================================== *)

(** The Python objects that reach [Measure.__init__] as arguments. *)
Inductive pyobj : Type :=
| PyNone
| PyInt (z : Z)
| PyFloat (r : R)
| PyExpr (e : Expression)
| PyList (l : list pyobj)
| PyTuple (l : list pyobj)
| PyMeasureGenerator (g : Generator Measure).

(** The signature of [Measure.__init__] (without [self]). *)
Definition Measure_init_params : list (Param pyobj) :=
  [ mkParam "qubit" None;
    mkParam "bit" None;
    mkParam "axis" (Some (PyTuple [PyInt 0; PyInt 0; PyInt 1]));
    mkParam "generator" (Some PyNone);
    mkParam "arguments" (Some PyNone) ].

Definition pyobj_as_number (o : pyobj) : result R :=
  match o with
  | PyInt z => Ok (IZR z)
  | PyFloat r => Ok r
  | PyExpr (Float r) => Ok r
  | PyExpr (Int z) => Ok (IZR z)
  | _ => Raise (TypeError "axis requires an ArrayLike")
  end.

Fixpoint pyobj_as_numbers (l : list pyobj) : result (list R) :=
  match l with
  | [] => Ok []
  | o :: l' =>
      let* x := pyobj_as_number o in
      let* xs := pyobj_as_numbers l' in
      Ok (x :: xs)
  end.

Definition pyobj_as_AxisLike (o : pyobj) : result AxisLike :=
  match o with
  | PyExpr (EAxis a) => Ok (AxisLike_axis a)
  | PyList l | PyTuple l =>
      let* v := pyobj_as_numbers l in Ok (AxisLike_array v)
  | _ => Raise (TypeError "axis requires an ArrayLike")
  end.

Definition pyobj_as_generator (o : pyobj) : result (option (Generator Measure)) :=
  match o with
  | PyNone => Ok None
  | PyMeasureGenerator g => Ok (Some g)
  | _ => Raise (TypeError "generator is not callable")
  end.

Fixpoint pyobj_as_expressions (l : list pyobj) : result (list Expression) :=
  match l with
  | [] => Ok []
  | PyExpr e :: l' => let* es := pyobj_as_expressions l' in Ok (e :: es)
  | _ :: _ => Raise (TypeError "argument is not an Expression")
  end.

Definition pyobj_as_arguments (o : pyobj) : result (option (list Expression)) :=
  match o with
  | PyNone => Ok None
  | PyTuple l => let* es := pyobj_as_expressions l in Ok (Some es)
  | _ => Raise (TypeError "arguments is not a tuple")
  end.

(** The call of [Measure] with [args] and [kwargs]: the arguments are bound to the
    signature of [Measure.__init__], then the body runs.  Operands that are
    not of the annotated types have no counterpart in the typed record and
    are rejected. *)
Definition Measure_call (args : list pyobj) (kwargs : gmap string pyobj)
    : result Measure :=
  let* bound := bind_arguments Measure_init_params args kwargs in
  match bound with
  | [PyExpr (EQubit qubit); PyExpr (EBit bit); axis; generator; arguments] =>
      let* axis := pyobj_as_AxisLike axis in
      let* generator := pyobj_as_generator generator in
      let* arguments := pyobj_as_arguments arguments in
      Measure_init qubit bit axis generator arguments
  | _ => Raise (TypeError "operand is not of its annotated type")
  end.

(** The attribute [.index] of a qubit or bit operand. *)
Definition Expression_index (e : Expression) : result Z :=
  match e with
  | EQubit q => Ok (qubit_index q)
  | EBit b => Ok (bit_index b)
  | _ => Raise (AttributeError "object has no attribute 'index'")
  end.

Definition unit_z : pyobj := PyTuple [PyInt 0; PyInt 0; PyInt 1].

(** [def measure(q, b): return Measure(qubits=[q.index, ], bit=b, axis=(0, 0, 1))] *)
Definition measure_generator_fn : Generator Measure :=
  mkGenerator "measure" [mkParam "q" None; mkParam "b" None]
    (fun bound =>
       match bound with
       | [q; b] =>
           let* index := Expression_index q in
           Measure_call []
             (<["qubits" := PyList [PyInt index]]>
               (<["bit" := PyExpr b]> (<["axis" := unit_z]> ∅)))
       | _ => Raise (TypeError "measure() takes 2 arguments")
       end).

(** [def measure_z(q, b): return Measure(qubits=[q,], bit=b, axis=(0, 0, 1))] *)
Definition measure_z_generator_fn : Generator Measure :=
  mkGenerator "measure_z" [mkParam "q" None; mkParam "b" None]
    (fun bound =>
       match bound with
       | [q; b] =>
           Measure_call []
             (<["qubits" := PyList [PyExpr q]]>
               (<["bit" := PyExpr b]> (<["axis" := unit_z]> ∅)))
       | _ => Raise (TypeError "measure_z() takes 2 arguments")
       end).

(** The two registered generators, as decorated with [@named_measurement]. *)
Definition measure := named_measurement measure_generator_fn.
Definition measure_z := named_measurement measure_z_generator_fn.

(* ===================================================================== *)
(** * The native rotations and the identity filter                         *)
(* ===================================================================== *)

(** The attribute [.value] of a [Float] argument. *)
Definition Expression_value (e : Expression) : result R :=
  match e with
  | Float v => Ok v
  | Int v => Ok (IZR v)
  | _ => Raise (AttributeError "object has no attribute 'value'")
  end.

(** Modelled from the spec: the native gate catalog of
    [opensquirrel/default_gates.py] (missing).  Section 6 gives each of
    [Rx], [Ry], [Rz] as a named generator [(qubit, angle) ->
    BlochSphereRotation] about its canonical axis; the rotation carries no
    phase. *)
Definition rotation_generator_fn (name : string) (axis : list R)
    : Generator Gate :=
  mkGenerator name [mkParam "q" None; mkParam "theta" None]
    (fun bound =>
       match bound with
       | [EQubit q; theta] =>
           let* angle := Expression_value theta in
           let* r := BlochSphereRotation_init q (AxisLike_array axis)
                       angle 0 None None in
           Ok (GBloch r)
       | _ => Raise (TypeError "operand is not of its annotated type")
       end).

Definition Rx_fn : Generator Gate := rotation_generator_fn "Rx" [1; 0; 0].
Definition Ry_fn : Generator Gate := rotation_generator_fn "Ry" [0; 1; 0].
Definition Rz_fn : Generator Gate := rotation_generator_fn "Rz" [0; 0; 1].

(** The three callables as the decomposers know them; function objects are
    compared by identity, which the tag stands for. *)
Inductive NativeRotation : Type := Rx | Ry | Rz.

#[global] Instance NativeRotation_eq_dec : EqDecision NativeRotation.
Proof. solve_decision. Defined.

Definition native_generator (r : NativeRotation) : Generator Gate :=
  match r with
  | Rx => Rx_fn
  | Ry => Ry_fn
  | Rz => Rz_fn
  end.

(** Calling the decorated generator [Rx], [Ry] or [Rz]. *)
Definition native_call (r : NativeRotation) (q : Qubit) (theta : Expression)
    : result Gate :=
  named_gate (native_generator r) [EQubit q; theta] ∅.

(** Modelled from the spec: [filter_out_identities] of
    [opensquirrel/utils/identity_filter.py] (missing): "drop any of the
    three that is an identity rotation, output order preserved". *)
Definition filter_out_identities (gates : list Gate) : list Gate :=
  List.filter (fun g => negb (Gate_is_identity g)) gates.

(* ===================================================================== *)
(** * The A-B-A decomposition engine
      ([opensquirrel/decomposer/aba_decomposer.py])                        *)
(* ===================================================================== *)

(** The six concrete subclasses of [ABADecomposer]. *)
Inductive ABADecomposer : Type :=
| XYXDecomposer | XZXDecomposer
| YXYDecomposer | YZYDecomposer
| ZXZDecomposer | ZYZDecomposer.

Definition ra (d : ABADecomposer) : NativeRotation :=
  match d with
  | XYXDecomposer | XZXDecomposer => Rx
  | YXYDecomposer | YZYDecomposer => Ry
  | ZXZDecomposer | ZYZDecomposer => Rz
  end.

Definition rb (d : ABADecomposer) : NativeRotation :=
  match d with
  | YXYDecomposer | ZXZDecomposer => Rx
  | XYXDecomposer | ZYZDecomposer => Ry
  | XZXDecomposer | YZYDecomposer => Rz
  end.

Definition _gate_list : list NativeRotation := [Rx; Ry; Rz].

(** [list.index]: the position of the first occurrence. *)
Fixpoint list_index {A : Type} `{EqDecision A} (l : list A) (x : A)
    : result nat :=
  match l with
  | [] => Raise (ValueError "x not in list")
  | y :: l' =>
      if decide (y = x) then Ok O
      else let* i := list_index l' x in Ok (S i)
  end.

(** The state that [ABADecomposer.__init__] sets up. *)
Record ABAIndices : Type := mkABAIndices { index_a : nat; index_b : nat }.

Definition ABADecomposer_init (d : ABADecomposer) : result ABAIndices :=
  let* ia := list_index _gate_list (ra d) in
  let* ib := list_index _gate_list (rb d) in
  Ok (mkABAIndices ia ib).

Definition clamp_unit (x : R) : R := Rmax (Rmin x 1) (-1).

(** [ABADecomposer.get_decomposition_angles] once [__init__] has run, over
    the reals.  The quotient [b / root] of the degenerate branch is the one
    argument of [math.acos] that the source does not clamp: over the reals
    it lies in [[-1, 1]] for a unit axis, in binary64 it can round to a
    number above 1 ([Binary64.get_decomposition_angles_at]). *)
Definition get_decomposition_angles_at (self : ABAIndices) (alpha : R)
    (axis : AxisLike) : result (R * R * R) :=
  let* axis := Axis_init axis in
  if negb (Rltb (- PI + ATOL) alpha && Rleb alpha (PI + ATOL)) then
    Raise (ValueError "Angle needs to be normalized")
  else
    let* a := Axis_getitem axis (index_a self) in
    let* b := Axis_getitem axis (index_b self) in
    let* (p, theta2, m) :=
      if Rltb (Rabs (alpha - PI)) ATOL then
        if Rltb (Rabs a) ATOL then
          let* acos_b := math_acos b in
          Ok (0, PI, 2 * acos_b)
        else
          let* acos_a := math_acos a in
          let theta2 := 2 * acos_a in
          if Rltb (Rabs (a - 1)) ATOL || Rltb (Rabs (a + 1)) ATOL then
            Ok (PI, theta2, PI)
          else
            let* root := math_sqrt (1 - a ^ 2) in
            let* acos_m := math_acos (b / root) in
            Ok (PI, theta2, 2 * acos_m)
      else
        let p := 2 * math_atan2 (a * sin (alpha / 2)) (cos (alpha / 2)) in
        let* root := math_sqrt (1 + (a * tan (alpha / 2)) ^ 2) in
        let acos_argument := clamp_unit (cos (alpha / 2) * root) in
        let* acos_2 := math_acos acos_argument in
        let theta2 := math_copysign (2 * acos_2) alpha in
        if Rltb (Rabs (sin (theta2 / 2))) ATOL then
          Ok (p, theta2, p)
        else
          let acos_argument :=
            clamp_unit (b * sin (alpha / 2) / sin (theta2 / 2)) in
          let* acos_m := math_acos acos_argument in
          Ok (p, theta2, 2 * acos_m)
    in
    let theta1 := (p + m) / 2 in
    let theta3 := p - theta1 in
    Ok (theta1, theta2, theta3).

Definition get_decomposition_angles (d : ABADecomposer) (alpha : R)
    (axis : AxisLike) : result (R * R * R) :=
  let* self := ABADecomposer_init d in
  get_decomposition_angles_at self alpha axis.

(** [ABADecomposer.decompose]. *)
Definition decompose (d : ABADecomposer) (g : Gate) : result (list Gate) :=
  match g with
  | GBloch r =>
      let* (theta1, theta2, theta3) :=
        get_decomposition_angles d (bsr_angle r) (AxisLike_axis (bsr_axis r)) in
      let* a1 := native_call (ra d) (bsr_qubit r) (Float theta1) in
      let* b := native_call (rb d) (bsr_qubit r) (Float theta2) in
      let* a2 := native_call (ra d) (bsr_qubit r) (Float theta3) in
      Ok (filter_out_identities [a1; b; a2])
  | _ => Ok [g]
  end.

(* ===================================================================== *)
(** * The engine in binary64 arithmetic                                    *)
(* ===================================================================== *)

(** The definitions above take Python's floats as real numbers.  The values
    computed that way agree with the program's up to rounding, but whether
    an unclamped [math.acos] raises does not carry over: a quotient that is
    at most 1 over the reals can round to a number above 1.  This module
    gives [get_decomposition_angles] over IEEE binary64 numbers, the
    arithmetic of Python's [float] and of [np.float64], with the kernel's
    primitive floats.  The functions of the C library that [math] calls are
    parameters; [math.sqrt] is the correctly rounded square root, and
    [x ** 2] is taken as the correctly rounded product [x * x]. *)
Module Binary64.

#[local] Set Warnings "-inexact-float".
Local Open Scope float_scope.

(** The C library's functions behind [math.acos], [math.atan2],
    [math.sin], [math.cos] and [math.tan]. *)
Record Libm : Type := mkLibm {
  libm_acos : float -> float;
  libm_atan2 : float -> float -> float;
  libm_sin : float -> float;
  libm_cos : float -> float;
  libm_tan : float -> float
}.

(** Modelled from the spec: the constant [ATOL] of [opensquirrel/common.py],
    which is not part of the sources at hand; section 3 of the spec gives
    its scale as 1e-8. *)
Definition ATOL : float := 1e-8.

(** [math.pi], the binary64 number nearest to pi. *)
Definition math_pi : float := 0x1.921fb54442d18p+1.

(** The value that an [Axis] object stores. *)
Record Axis : Type := mkAxis { axis_x : float; axis_y : float; axis_z : float }.

Definition Axis_value (a : Axis) : list float := [axis_x a; axis_y a; axis_z a].

(** [Axis.__getitem__]. *)
Definition Axis_getitem (a : Axis) (index : nat) : result float :=
  match Axis_value a !! index with
  | Some c => Ok c
  | None => Raise (IndexError "index out of bounds")
  end.

(** [math.acos]: [ValueError] outside [-1, 1]; not-a-number is passed on. *)
Definition math_acos (libm : Libm) (x : float) : result float :=
  if (x <? -1) || (1 <? x) then Raise (ValueError "math domain error")
  else Ok (libm_acos libm x).

(** [math.sqrt]: [ValueError] on a negative argument. *)
Definition math_sqrt (x : float) : result float :=
  if x <? 0 then Raise (ValueError "math domain error")
  else Ok (PrimFloat.sqrt x).

(** [math.copysign x y]. *)
Definition math_copysign (x y : float) : float :=
  if PrimFloat.get_sign y then - PrimFloat.abs x else PrimFloat.abs x.

(** [max(min(x, 1.0), -1.0)] with Python's [min] and [max], which keep
    their first argument unless the second one is strictly beyond it. *)
Definition clamp_unit (x : float) : float :=
  let lower := if 1 <? x then 1 else x in
  if lower <? -1 then -1 else lower.

(** The guard [-math.pi + ATOL < alpha <= math.pi + ATOL]. *)
Definition angle_accepted (alpha : float) : bool :=
  (- math_pi + ATOL <? alpha) && (alpha <=? math_pi + ATOL).

(** [ABADecomposer.get_decomposition_angles] once [__init__] has run, on an
    [Axis] object, which [Axis(axis)] hands on as it is. *)
Definition get_decomposition_angles_at (libm : Libm) (self : ABAIndices)
    (alpha : float) (axis : Axis) : result (float * float * float) :=
  if negb (angle_accepted alpha) then
    Raise (ValueError "Angle needs to be normalized")
  else
    let* a := Axis_getitem axis (index_a self) in
    let* b := Axis_getitem axis (index_b self) in
    let* (p, theta2, m) :=
      if PrimFloat.abs (alpha - math_pi) <? ATOL then
        if PrimFloat.abs a <? ATOL then
          let* acos_b := math_acos libm b in
          Ok (0, math_pi, 2 * acos_b)
        else
          let* acos_a := math_acos libm a in
          let theta2 := 2 * acos_a in
          if (PrimFloat.abs (a - 1) <? ATOL) || (PrimFloat.abs (a + 1) <? ATOL) then
            Ok (math_pi, theta2, math_pi)
          else
            let* root := math_sqrt (1 - a * a) in
            let* acos_m := math_acos libm (b / root) in
            Ok (math_pi, theta2, 2 * acos_m)
      else
        let p := 2 * libm_atan2 libm (a * libm_sin libm (alpha / 2))
                       (libm_cos libm (alpha / 2)) in
        let* root :=
          math_sqrt (1 + (a * libm_tan libm (alpha / 2))
                         * (a * libm_tan libm (alpha / 2))) in
        let acos_argument := clamp_unit (libm_cos libm (alpha / 2) * root) in
        let* acos_2 := math_acos libm acos_argument in
        let theta2 := math_copysign (2 * acos_2) alpha in
        if PrimFloat.abs (libm_sin libm (theta2 / 2)) <? ATOL then
          Ok (p, theta2, p)
        else
          let acos_argument :=
            clamp_unit (b * libm_sin libm (alpha / 2)
                        / libm_sin libm (theta2 / 2)) in
          let* acos_m := math_acos libm acos_argument in
          Ok (p, theta2, 2 * acos_m)
    in
    let theta1 := (p + m) / 2 in
    let theta3 := p - theta1 in
    Ok (theta1, theta2, theta3).

Definition get_decomposition_angles (libm : Libm) (d : ABADecomposer)
    (alpha : float) (axis : Axis) : result (float * float * float) :=
  let* self := ABADecomposer_init d in
  get_decomposition_angles_at libm self alpha axis.

(** The stored axis whose component read as [axis[index_a]] is [a], whose
    component read as [axis[index_b]] is [b] and whose third component is
    zero. *)
Definition axis_with (d : ABADecomposer) (a b : float) : Axis :=
  let component r :=
    if decide (r = ra d) then a else if decide (r = rb d) then b else 0 in
  mkAxis (component Rx) (component Ry) (component Rz).

(** The stored axis with the components 0.8 and 0.6 in these places: for
    the Z-Y-Z decomposer, [(0, 0.6, 0.8)]. *)
Definition axis_68 (d : ABADecomposer) : Axis := axis_with d 0.8 0.6.

End Binary64.

(* ===================================================================== *)
(** * The vocabulary of the statements                                     *)
(* ===================================================================== *)

(** Two real numbers agree within [ATOL]. *)
Definition within_ATOL (x y : R) : Prop := Rabs (x - y) <= ATOL.

(** Two axes agree componentwise within [ATOL]. *)
Definition Axis_within_ATOL (a b : Axis) : Prop :=
  within_ATOL (axis_x a) (axis_x b) /\
  within_ATOL (axis_y a) (axis_y b) /\
  within_ATOL (axis_z a) (axis_z b).

(** [np.allclose] on two axes, spelled out. *)
Definition Axis_allclose (rtol atol : R) (a : Axis) (b : list R) : Prop :=
  match b with
  | [bx; by'; bz] =>
      Rabs (axis_x a - bx) <= atol + rtol * Rabs bx /\
      Rabs (axis_y a - by') <= atol + rtol * Rabs by' /\
      Rabs (axis_z a - bz) <= atol + rtol * Rabs bz
  | _ => False
  end.

(** The two unit axes used to separate exact from approximate equality:
    [(1, 0, 0)] and the unit vector of the rational point with parameter
    [t = 1e-9] on the circle, whose components differ from it by about
    [2e-18] and [2e-9]. *)
Definition axis_e1 : Axis := mkAxis 1 0 0.

(** The unit axis next to [axis_e1]. *)
Definition axis_e1_near : Axis :=
  mkAxis ((10 ^ 18 - 1) / (10 ^ 18 + 1)) (2 * 10 ^ 9 / (10 ^ 18 + 1)) 0.

(** The opposite axis, [-axis.value]. *)
Definition Axis_opp (a : Axis) : Axis :=
  mkAxis (- axis_x a) (- axis_y a) (- axis_z a).

(** Equality of rotations as section 3 of the spec words it, with every
    comparison, the ones on the axes included, an absolute comparison
    within [ATOL]. *)
Definition BlochSphereRotation_eq_within_ATOL (r r' : BlochSphereRotation)
    : Prop :=
  bsr_qubit r = bsr_qubit r' /\
  within_ATOL (bsr_phase r) (bsr_phase r') /\
  ((Axis_within_ATOL (bsr_axis r) (bsr_axis r') /\
    within_ATOL (bsr_angle r) (bsr_angle r')) \/
   (Axis_within_ATOL (bsr_axis r) (Axis_opp (bsr_axis r')) /\
    within_ATOL (bsr_angle r) (- bsr_angle r'))).

(** The equality that [BlochSphereRotation.__eq__] computes: the phases
    differ by at most [ATOL], the angles by less than [ATOL], and the axes
    pass [np.allclose] with numpy's default tolerances, that is
    [|a_i - b_i| <= 1e-8 + 1e-5 * |b_i|]. *)
Definition BlochSphereRotation_eq_allclose (r r' : BlochSphereRotation)
    : Prop :=
  bsr_qubit r = bsr_qubit r' /\
  Rabs (bsr_phase r - bsr_phase r') <= ATOL /\
  ((Axis_allclose np_default_rtol np_default_atol (bsr_axis r)
      (Axis_value (bsr_axis r')) /\
    Rabs (bsr_angle r - bsr_angle r') < ATOL) \/
   (Axis_allclose np_default_rtol np_default_atol (bsr_axis r)
      (map Ropp (Axis_value (bsr_axis r'))) /\
    Rabs (bsr_angle r + bsr_angle r') < ATOL)).

(** Two unit axes about [1e-6] apart: [(3/5, 4/5, 0)] and the unit vector
    of the rational point with parameter [1/2 + 1e-6] on the circle. *)
Definition axis_345 : Axis := mkAxis (3 / 5) (4 / 5) 0.

(** The unit axis next to [axis_345]. *)
Definition axis_345_near : Axis :=
  mkAxis (749998999999 / 1250001000001) (1000002000000 / 1250001000001) 0.

(** Two rotations of qubit 0 by one radian about these two axes. *)
Definition rot_345 : BlochSphereRotation :=
  mkBlochSphereRotation None None (mkQubit 0) axis_345 1 0.

Definition rot_345_near : BlochSphereRotation :=
  mkBlochSphereRotation None None (mkQubit 0) axis_345_near 1 0.

(** The three error kinds of MatrixGate construction, told apart by the
    message of the [ValueError] that the constructor raises (the shape
    message is kept up to its fixed prefix). *)
Definition InvalidOperandCount : exn :=
  ValueError "for 1q gates, please use BlochSphereRotation".
Definition DuplicateOperand : exn :=
  ValueError "control and target qubit cannot be the same".
Definition MatrixShapeMismatch : exn :=
  ValueError "incorrect matrix shape.".

(** The shape [(2^n, 2^n)] that [n] operands require. *)
Definition expected_shape (operands : list Qubit) : list Z :=
  [Z.shiftl 1 (Z.of_nat (length operands));
   Z.shiftl 1 (Z.of_nat (length operands))].

(** The setters and getters of the metadata behave like attribute
    assignment and attribute access. *)
Class NodeMetaLaws (N : Type) `{NodeMeta N} : Prop := {
  arguments_set_arguments : forall (n : N) a,
    node_arguments (set_arguments n a) = a;
  generator_set_arguments : forall (n : N) a,
    node_generator (set_arguments n a) = node_generator n;
  generator_set_generator : forall (n : N) g,
    node_generator (set_generator n g) = g
}.

(** The round trip of a node [n] built by calling a registered generator
    [g] on [args] and [kwargs]: [n.arguments] is the tuple of the values
    bound to the parameters of [g], in declaration order; [n.generator] is
    [g]; and calling [n.generator] on [n.arguments] returns a node [n'] that
    is [n] itself, and equal to [n] under [eqb]. *)
Definition roundtrip {N : Type} `{NodeMeta N} (eqb : N -> N -> bool)
    (g : Generator N) (args : list Expression)
    (kwargs : gmap string Expression) (n : N) : Prop :=
  exists bound n',
    bind_arguments (gen_params g) args kwargs = Ok bound /\
    node_generator n = Some g /\
    node_arguments n = Some bound /\
    invoke_generator n = Ok n' /\
    n' = n /\
    eqb n' n = true.

(** [==] with a gate on the left ([Gate.__eq__] and its override in
    [BlochSphereRotation]).  A rotation compares analytically; the other
    gate classes call [compare_gates], whose collaborators (the circuit
    matrix compiler, the reindexer and the matrix comparison up to global
    phase) are not part of the sources: the oracle is a parameter. *)
Definition Gate___eq__ (compare_gates : Gate -> Gate -> bool)
    (self other : Gate) : bool :=
  match self with
  | GBloch r => BlochSphereRotation___eq__ r other
  | _ => compare_gates self other
  end.

(** The qubit of index 0. *)
Definition q0 : Qubit := mkQubit 0.

(** The error of a call that passes a keyword the callee does not declare. *)
Definition unexpected_qubits : exn :=
  TypeError "got an unexpected keyword argument".

(** The component of the axis that a decomposer reads as [axis[index_a]]. *)
Definition component_a (d : ABADecomposer) (axis : Axis) : R :=
  match ra d with Rx => axis_x axis | Ry => axis_y axis | Rz => axis_z axis end.

(** The component read as [axis[index_b]]. *)
Definition component_b (d : ABADecomposer) (axis : Axis) : R :=
  match rb d with Rx => axis_x axis | Ry => axis_y axis | Rz => axis_z axis end.

(** The error of the normalisation guard. *)
Definition UnnormalizedAngle : exn := ValueError "Angle needs to be normalized".

(** The angle passes the guard of [get_decomposition_angles]. *)
Definition angle_accepted (alpha : R) : Prop :=
  - PI + ATOL < alpha <= PI + ATOL.

(** The body of [get_decomposition_angles] below the guard, as a function
    of [a = axis[index_a]] and [b = axis[index_b]], over the reals. *)
Definition aba_angles (a b alpha : R) : result (R * R * R) :=
  let* (p, theta2, m) :=
    if Rltb (Rabs (alpha - PI)) ATOL then
      if Rltb (Rabs a) ATOL then
        let* acos_b := math_acos b in
        Ok (0, PI, 2 * acos_b)
      else
        let* acos_a := math_acos a in
        let theta2 := 2 * acos_a in
        if Rltb (Rabs (a - 1)) ATOL || Rltb (Rabs (a + 1)) ATOL then
          Ok (PI, theta2, PI)
        else
          let* root := math_sqrt (1 - a ^ 2) in
          let* acos_m := math_acos (b / root) in
          Ok (PI, theta2, 2 * acos_m)
    else
      let p := 2 * math_atan2 (a * sin (alpha / 2)) (cos (alpha / 2)) in
      let* root := math_sqrt (1 + (a * tan (alpha / 2)) ^ 2) in
      let acos_argument := clamp_unit (cos (alpha / 2) * root) in
      let* acos_2 := math_acos acos_argument in
      let theta2 := math_copysign (2 * acos_2) alpha in
      if Rltb (Rabs (sin (theta2 / 2))) ATOL then
        Ok (p, theta2, p)
      else
        let acos_argument :=
          clamp_unit (b * sin (alpha / 2) / sin (theta2 / 2)) in
        let* acos_m := math_acos acos_argument in
        Ok (p, theta2, 2 * acos_m)
  in
  let theta1 := (p + m) / 2 in
  let theta3 := p - theta1 in
  Ok (theta1, theta2, theta3).

(** The call reaches the quotient of the degenerate branch, whose [acos] is
    not clamped: [alpha] is within [ATOL] of [pi] and [a = axis[index_a]] is
    within [ATOL] of none of 0, 1 and -1. *)
Definition unclamped_acos_reached (a alpha : R) : Prop :=
  Rabs (alpha - PI) < ATOL /\
  ATOL <= Rabs a /\ ATOL <= Rabs (a - 1) /\ ATOL <= Rabs (a + 1).

(** The interval that section 4.4 of the spec gives for the guard. *)
Definition angle_accepted_as_stated (alpha : R) : Prop :=
  - PI - ATOL < alpha <= PI + ATOL.

(** The unit axes [(0, 0, 1)] and [(-1, 0, 0)]. *)
Definition axis_e3 : Axis := mkAxis 0 0 1.

Definition axis_minus_e1 : Axis := mkAxis (-1) 0 0.

(** The quarter turn of qubit 0 about [axis], without phase. *)
Definition quarter_turn (axis : Axis) : BlochSphereRotation :=
  mkBlochSphereRotation None None (mkQubit 0) axis (PI / 2) 0.

(** [BlochSphereRotation.identity(Qubit(0))]. *)
Definition identity_rotation : BlochSphereRotation :=
  mkBlochSphereRotation None None (mkQubit 0) axis_e1 0 0.

(** Modelled from the spec: the circuit-matrix compiler is not part of the
    sources; section 6 gives the unitary of a rotation by "the standard
    exponential-of-Pauli-dot-axis formula",
    [cos(angle/2) I - i sin(angle/2) (axis . sigma)].  Such a unitary is the
    unit quaternion [(cos(angle/2), sin(angle/2) axis)], and the product of
    two unitaries is the Hamilton product of their quaternions. *)
Record Quaternion : Type := mkQuaternion { qw : R; qx : R; qy : R; qz : R }.

Definition rotation_quaternion (axis : Axis) (angle : R) : Quaternion :=
  mkQuaternion (cos (angle / 2))
    (sin (angle / 2) * axis_x axis)
    (sin (angle / 2) * axis_y axis)
    (sin (angle / 2) * axis_z axis).

Definition qmul (p q : Quaternion) : Quaternion :=
  mkQuaternion
    (qw p * qw q - qx p * qx q - qy p * qy q - qz p * qz q)
    (qw p * qx q + qx p * qw q + qy p * qz q - qz p * qy q)
    (qw p * qy q - qx p * qz q + qy p * qw q + qz p * qx q)
    (qw p * qz q + qx p * qy q - qy p * qx q + qz p * qw q).

(** The same unitary with the global phase [-1]. *)
Definition qopp (p : Quaternion) : Quaternion :=
  mkQuaternion (- qw p) (- qx p) (- qy p) (- qz p).

(** The canonical axis of a native rotation. *)
Definition native_axis (r : NativeRotation) : Axis :=
  match r with
  | Rx => mkAxis 1 0 0
  | Ry => mkAxis 0 1 0
  | Rz => mkAxis 0 0 1
  end.

(** The product [Ra(theta3) . Rb(theta2) . Ra(theta1)]. *)
Definition aba_composition (d : ABADecomposer) (theta1 theta2 theta3 : R)
    : Quaternion :=
  qmul (rotation_quaternion (native_axis (ra d)) theta3)
    (qmul (rotation_quaternion (native_axis (rb d)) theta2)
       (rotation_quaternion (native_axis (ra d)) theta1)).

(* ===================================================================== *)
(** * Further parts of the IR node model                                   *)
(* ===================================================================== *)

(** [Measure.name]. *)
Definition Measure_name (m : Measure) : string :=
  match measure_generator m with
  | Some g => gen_name g
  | None => "<abstract_measurement>"
  end.

(** [Reset.name]. *)
Definition Reset_name (r : Reset) : string :=
  match reset_generator r with
  | Some g => gen_name g
  | None => "<abstract_reset>"
  end.

(** [Reset.is_abstract]. *)
Definition Reset_is_abstract (r : Reset) : bool :=
  match reset_arguments r with None => true | Some _ => false end.

(** [BlochSphereRotation.identity]. *)
Definition BlochSphereRotation_identity (q : Qubit)
    : result BlochSphereRotation :=
  BlochSphereRotation_init q (AxisLike_array [1; 0; 0]) 0 0 None None.

(** The gates that the three constructors can return, starting from
    rotations and matrix gates and nesting controls. *)
Inductive Gate_constructed : Gate -> Prop :=
| constructed_rotation qubit axis angle phase generator arguments r :
    BlochSphereRotation_init qubit axis angle phase generator arguments = Ok r ->
    Gate_constructed (GBloch r)
| constructed_matrix matrix operands generator arguments m :
    MatrixGate_init matrix operands generator arguments = Ok m ->
    Gate_constructed (GMatrix m)
| constructed_controlled control_qubit target_gate generator arguments g :
    Gate_constructed target_gate ->
    ControlledGate_init control_qubit target_gate generator arguments = Ok g ->
    Gate_constructed g.

(** The number of parameters that a call does not pass by keyword. *)
Definition positional_parameters {V : Type} (params : list (Param V))
    (kwargs : gmap string V) : nat :=
  length (List.filter
            (fun p => match kwargs !! par_name p with
                      | Some _ => false
                      | None => true
                      end) params).

(** The error of an index past the end of the argument tuple. *)
Definition tuple_index_out_of_range : exn :=
  IndexError "tuple index out of range".

(** A generator with a defaulted parameter, as a sample of what a named
    wrapper may be given: [def reset_n(q, n=Int(1)): return Reset(qubit=q)]. *)
Definition reset_n_fn : Generator Reset :=
  mkGenerator "reset_n"
    [mkParam "q" None; mkParam "n" (Some (Int 1))]
    (fun bound =>
       match bound with
       | [EQubit q; _] => Ok (mkReset None None q)
       | _ => Raise (TypeError "operand is not of its annotated type")
       end).

(** A unit axis next to [(1, 0, 0)] whose second component, about
    [1.000005e-8], is just above numpy's absolute tolerance. *)
Definition axis_e1_edge : Axis :=
  mkAxis (1599999999999999959999599999 / 1600000000000000040000400001)
         (16000080000000000000 / 1600000000000000040000400001) 0.

(** The rotation of qubit 0 by one radian about [axis], without phase. *)
Definition unit_rotation (axis : Axis) : BlochSphereRotation :=
  mkBlochSphereRotation None None (mkQubit 0) axis 1 0.

(** The measurement of qubit 0 into bit 0 along [axis]. *)
Definition unit_measure (axis : Axis) : Measure :=
  mkMeasure None None (mkQubit 0) (mkBit 0) axis.

(** [np.eye(2 ** n)] as an array. *)
Definition np_eye (n : nat) : NDArray :=
  mkNDArray [Z.of_nat n; Z.of_nat n] (np_eye_data n).

(** A gate as [decompose] emits it through decomposer [d] on qubit [q]: a
    rotation of [q] that is not an identity and that carries, as its
    generator, one of the two native rotations of [d], with the arguments
    of the call recorded. *)
Definition native_rotation_on (d : ABADecomposer) (q : Qubit) (g : Gate)
    : Prop :=
  exists (r : BlochSphereRotation) (n : NativeRotation),
    g = GBloch r /\
    bsr_qubit r = q /\
    (n = ra d \/ n = rb d) /\
    Gate_generator g = Some (native_generator n) /\
    Gate_is_anonymous g = false /\
    Gate_is_identity g = false.

(* ===================================================================== *)
(** * Theorems                                                             *)
(* ===================================================================== *)

(* ===================================================================== *)
(** * Basic facts about the numeric primitives                             *)
(* ===================================================================== *)

Lemma Rltb_true (x y : R) : Rltb x y = true <-> x < y.
Proof. unfold Rltb. destruct (Rlt_dec x y); split; auto; discriminate. Qed.

Lemma Rltb_false (x y : R) : Rltb x y = false <-> y <= x.
Proof.
  unfold Rltb. destruct (Rlt_dec x y); split; intros; try discriminate; auto; lra.
Qed.

Lemma Rleb_true (x y : R) : Rleb x y = true <-> x <= y.
Proof. unfold Rleb. destruct (Rle_dec x y); split; auto; discriminate. Qed.

Lemma Rleb_false (x y : R) : Rleb x y = false <-> y < x.
Proof.
  unfold Rleb. destruct (Rle_dec x y); split; intros; try discriminate; auto; lra.
Qed.

Lemma Reqb_true (x y : R) : Reqb x y = true <-> x = y.
Proof. unfold Reqb. destruct (Req_dec_T x y); split; auto; discriminate. Qed.

Lemma ATOL_val : ATOL = / 100000000.
Proof. unfold ATOL. field. Qed.

Lemma ATOL_pos : 0 < ATOL.
Proof. rewrite ATOL_val. lra. Qed.

Lemma np_default_rtol_val : np_default_rtol = / 100000.
Proof. unfold np_default_rtol. field. Qed.

Lemma np_default_atol_val : np_default_atol = / 100000000.
Proof. unfold np_default_atol. field. Qed.

Lemma PI_bounds : 3 < PI <= 4.
Proof. split; [ pose proof PI2_3_2; lra | apply PI_4 ]. Qed.

Ltac rabs := unfold Rabs in *; repeat destruct Rcase_abs; try lra.

Lemma np_allclose_axis (rtol atol : R) (a : Axis) (bx by' bz : R) :
  np_allclose rtol atol (Axis_value a) [bx; by'; bz] = true <->
  Axis_allclose rtol atol a [bx; by'; bz].
Proof.
  unfold Axis_value, Axis_allclose, np_allclose, np_isclose.
  rewrite !andb_true_iff, !Rleb_true. tauto.
Qed.

Lemma np_array_equal_axis (a b : Axis) :
  np_array_equal (Axis_value a) (Axis_value b) = true <->
  axis_x a = axis_x b /\ axis_y a = axis_y b /\ axis_z a = axis_z b.
Proof.
  unfold Axis_value, np_array_equal.
  rewrite !andb_true_iff, !Reqb_true. tauto.
Qed.

(** A unit axis cannot be close both to an axis and to its opposite. *)
Lemma allclose_both_signs_absurd (a b : Axis) :
  Axis_is_unit b ->
  Axis_allclose np_default_rtol np_default_atol a (Axis_value b) ->
  Axis_allclose np_default_rtol np_default_atol a (map Ropp (Axis_value b)) ->
  False.
Proof.
  unfold Axis_is_unit, Axis_allclose, Axis_value. simpl.
  rewrite np_default_rtol_val, np_default_atol_val.
  destruct b as [bx by' bz]; simpl.
  intros Hu (H1 & H2 & H3) (K1 & K2 & K3).
  assert (Bx : -1/2 <= bx <= 1/2) by (clear - H1 K1; rabs).
  assert (By : -1/2 <= by' <= 1/2) by (clear - H2 K2; rabs).
  assert (Bz : -1/2 <= bz <= 1/2) by (clear - H3 K3; rabs).
  nra.
Qed.

(* ===================================================================== *)
(** * Equality of axes, measurements and rotations                         *)
(* ===================================================================== *)

(** Construction establishes the invariant: the axis built from a
    3-component array of non-zero norm is a unit vector. *)
Lemma Axis_init_is_unit (v : list R) (a : Axis) :
  np_linalg_norm v <> 0 ->
  Axis_init (AxisLike_array v) = Ok a ->
  Axis_is_unit a.
Proof.
  intros Hn. unfold Axis_init, Axis_parse_and_validate_axislike.
  destruct v as [|x [|y [|z [|]]]]; cbn; try discriminate.
  intros [= <-]. unfold Axis_is_unit; cbn [axis_x axis_y axis_z].
  unfold np_linalg_norm in *. cbn [fold_right] in *.
  set (s := x * x + (y * y + (z * z + 0))) in *.
  assert (Hs : 0 <= s) by (subst s; nra).
  assert (Hsq : sqrt s * sqrt s = s) by (apply sqrt_sqrt; exact Hs).
  replace (x / sqrt s * (x / sqrt s) + y / sqrt s * (y / sqrt s) +
           z / sqrt s * (z / sqrt s))
    with (s / (sqrt s * sqrt s)) by (subst s; field; exact Hn).
  rewrite Hsq. field. intros E. apply Hn. rewrite E. apply sqrt_0.
Qed.

Lemma axis_e1_unit : Axis_is_unit axis_e1.
Proof. unfold Axis_is_unit, axis_e1; simpl. lra. Qed.

Lemma axis_e1_near_unit : Axis_is_unit axis_e1_near.
Proof.
  unfold Axis_is_unit, axis_e1_near; cbn [axis_x axis_y axis_z]. field; lra.
Qed.

Lemma axis_e1_near_within : Axis_within_ATOL axis_e1 axis_e1_near.
Proof.
  unfold Axis_within_ATOL, within_ATOL, axis_e1, axis_e1_near;
    cbn [axis_x axis_y axis_z].
  rewrite ATOL_val.
  assert (E1 : 1 - (10 ^ 18 - 1) / (10 ^ 18 + 1) = 2 / (10 ^ 18 + 1))
    by (field; lra).
  assert (E2 : 0 - 2 * 10 ^ 9 / (10 ^ 18 + 1) = - (2 * 10 ^ 9 / (10 ^ 18 + 1)))
    by (field; lra).
  assert (P1 : 0 < 2 / (10 ^ 18 + 1) <= / 100000000).
  { split.
    - apply Rdiv_lt_0_compat; lra.
    - apply Rmult_le_reg_r with (10 ^ 18 + 1); [lra|].
      unfold Rdiv. rewrite Rmult_assoc, Rinv_l by lra. lra. }
  assert (P2 : 0 < 2 * 10 ^ 9 / (10 ^ 18 + 1) <= / 100000000).
  { split.
    - apply Rdiv_lt_0_compat; lra.
    - apply Rmult_le_reg_r with (10 ^ 18 + 1); [lra|].
      unfold Rdiv. rewrite Rmult_assoc, Rinv_l by lra. lra. }
  rewrite E1, E2. repeat split; rabs.
Qed.

Lemma axis_e1_near_differs : axis_y axis_e1 <> axis_y axis_e1_near.
Proof.
  unfold axis_e1, axis_e1_near; cbn [axis_x axis_y axis_z]. intros H.
  assert (P : 0 < 2 * 10 ^ 9 / (10 ^ 18 + 1)) by (apply Rdiv_lt_0_compat; lra).
  lra.
Qed.

Lemma Axis_eq_true_iff (a b : Axis) :
  Axis_eq a b = true <-> a = b.
Proof.
  unfold Axis_eq. rewrite np_array_equal_axis.
  destruct a, b; simpl. split.
  - intros (-> & -> & ->). reflexivity.
  - intros H. injection H. auto.
Qed.

(** C3, as the code has it: [Axis.__eq__] is [np.array_equal], so two axes
    are equal exactly when their three components are identical; no
    tolerance is involved. *)
Theorem Axis_eq_exact (a b : Axis) :
  Axis_eq a b = true <->
  axis_x a = axis_x b /\ axis_y a = axis_y b /\ axis_z a = axis_z b.
Proof.
  rewrite Axis_eq_true_iff. split.
  - intros ->. auto.
  - destruct a, b; simpl. intros (-> & -> & ->). reflexivity.
Qed.

(** C3, as stated, fails: the unit axes [axis_e1] and [axis_e1_near] agree
    componentwise within [ATOL], yet [Axis.__eq__] answers [False]. *)
Lemma Axis_eq_not_tolerant :
  ~ (Axis_eq axis_e1 axis_e1_near = true <->
     Axis_within_ATOL axis_e1 axis_e1_near).
Proof.
  intros [_ H]. specialize (H axis_e1_near_within).
  apply Axis_eq_true_iff in H.
  apply axis_e1_near_differs. rewrite H at 1. reflexivity.
Qed.

(** Componentwise agreement within [ATOL] passes [np.allclose] for every
    non-negative relative tolerance. *)
Lemma within_ATOL_allclose (a b : Axis) :
  Axis_within_ATOL a b ->
  np_allclose np_default_rtol ATOL (Axis_value a) (Axis_value b) = true.
Proof.
  intros (H1 & H2 & H3). unfold Axis_value at 2.
  apply np_allclose_axis. unfold Axis_allclose, within_ATOL in *.
  rewrite np_default_rtol_val.
  pose proof (Rabs_pos (axis_x b)). pose proof (Rabs_pos (axis_y b)).
  pose proof (Rabs_pos (axis_z b)).
  repeat split; lra.
Qed.

(** C9: two measurements on the same qubit whose axes agree within [ATOL]
    are equal, whatever their bits, generators and arguments are: neither
    [measure_bit] nor the metadata fields occur in the conditions. *)
Theorem Measure_eq_ignores_bit (m1 m2 : Measure) :
  measure_qubit m1 = measure_qubit m2 ->
  Axis_within_ATOL (measure_axis m1) (measure_axis m2) ->
  Measure_eq m1 m2 = true.
Proof.
  intros Hq Ha. unfold Measure_eq.
  rewrite bool_decide_eq_true_2 by exact Hq.
  rewrite within_ATOL_allclose by exact Ha. reflexivity.
Qed.

Lemma Axis_within_ATOL_refl (a : Axis) : Axis_within_ATOL a a.
Proof.
  unfold Axis_within_ATOL, within_ATOL. pose proof ATOL_pos.
  rewrite !Rminus_diag, Rabs_R0. lra.
Qed.

(** C9 at a concrete pair: bits 0 and 5, one node abstract and the other
    carrying generator metadata. *)
Lemma Measure_eq_ignores_bit_witness :
  Measure_eq
    (mkMeasure None None (mkQubit 0) (mkBit 0) axis_e1)
    (mkMeasure (Some measure_generator_fn)
       (Some [EQubit (mkQubit 0); EBit (mkBit 5)])
       (mkQubit 0) (mkBit 5) axis_e1_near) = true.
Proof.
  apply Measure_eq_ignores_bit.
  - reflexivity.
  - exact axis_e1_near_within.
Defined.

(** ** BlochSphereRotation equality *)

Lemma np_allclose_axis_value (rtol atol : R) (a b : Axis) :
  np_allclose rtol atol (Axis_value a) (Axis_value b) = true <->
  Axis_allclose rtol atol a (Axis_value b).
Proof.
  exact (np_allclose_axis rtol atol a (axis_x b) (axis_y b) (axis_z b)).
Qed.

Lemma np_allclose_axis_opp (rtol atol : R) (a b : Axis) :
  np_allclose rtol atol (Axis_value a) (map Ropp (Axis_value b)) = true <->
  Axis_allclose rtol atol a (map Ropp (Axis_value b)).
Proof.
  exact (np_allclose_axis rtol atol a (- axis_x b) (- axis_y b) (- axis_z b)).
Qed.

(** What a positive answer of [BlochSphereRotation.__eq__] implies. *)
Lemma BlochSphereRotation_eq_elim (r r' : BlochSphereRotation) :
  BlochSphereRotation_eq r r' = true -> BlochSphereRotation_eq_allclose r r'.
Proof.
  unfold BlochSphereRotation_eq, BlochSphereRotation_eq_allclose.
  rewrite <- np_allclose_axis_value, <- np_allclose_axis_opp.
  destruct (decide (bsr_qubit r = bsr_qubit r')) as [Hq | Hq].
  2: { rewrite bool_decide_eq_false_2 by exact Hq. discriminate. }
  rewrite bool_decide_eq_true_2 by exact Hq. cbn [negb].
  destruct (Rltb ATOL (Rabs (bsr_phase r - bsr_phase r'))) eqn:Hp;
    [discriminate|].
  apply Rltb_false in Hp.
  destruct (np_allclose _ _ _ (Axis_value _)) eqn:E1.
  - rewrite Rltb_true. auto.
  - destruct (np_allclose _ _ _ (map _ _)) eqn:E2; [|discriminate].
    rewrite Rltb_true. auto.
Qed.

(** What suffices for a positive answer.  The test against the opposite
    axis is only reached when the test against the axis itself fails; for a
    unit axis the two tests exclude each other. *)
Lemma BlochSphereRotation_eq_intro (r r' : BlochSphereRotation) :
  Axis_is_unit (bsr_axis r') ->
  BlochSphereRotation_eq_allclose r r' -> BlochSphereRotation_eq r r' = true.
Proof.
  intros Hu. unfold BlochSphereRotation_eq, BlochSphereRotation_eq_allclose.
  pose proof (allclose_both_signs_absurd (bsr_axis r) (bsr_axis r') Hu) as Habs.
  rewrite <- np_allclose_axis_value, <- np_allclose_axis_opp in *.
  intros (Hq & Hp & Hax).
  rewrite bool_decide_eq_true_2 by exact Hq. cbn [negb].
  apply Rltb_false in Hp. rewrite Hp.
  destruct (np_allclose _ _ _ (Axis_value _)) eqn:E1.
  - apply Rltb_true. destruct Hax as [[_ H] | [H _]]; [exact H | tauto].
  - destruct Hax as [[H _] | [H Hangle]]; [discriminate|].
    rewrite H. apply Rltb_true, Hangle.
Qed.

(** C4, as the code has it: for a unit axis on the right-hand side,
    [r == r'] holds exactly when the qubits coincide, the phases differ by
    at most [ATOL], and the axes are close with numpy's default relative
    and absolute tolerances and the angles differ by less than [ATOL], or
    the same with the opposite axis and the opposite angle. *)
Theorem BlochSphereRotation_eq_spec (r r' : BlochSphereRotation) :
  Axis_is_unit (bsr_axis r') ->
  BlochSphereRotation_eq r r' = true <-> BlochSphereRotation_eq_allclose r r'.
Proof.
  intros Hu. split.
  - apply BlochSphereRotation_eq_elim.
  - apply BlochSphereRotation_eq_intro, Hu.
Qed.

Lemma axis_345_unit : Axis_is_unit axis_345.
Proof. unfold Axis_is_unit, axis_345; cbn [axis_x axis_y axis_z]. lra. Qed.

Lemma axis_345_near_unit : Axis_is_unit axis_345_near.
Proof.
  unfold Axis_is_unit, axis_345_near; cbn [axis_x axis_y axis_z]. lra.
Qed.

Lemma rot_345_eq : BlochSphereRotation_eq rot_345 rot_345_near = true.
Proof.
  apply BlochSphereRotation_eq_intro; [exact axis_345_near_unit|].
  unfold BlochSphereRotation_eq_allclose, rot_345, rot_345_near.
  cbn [bsr_qubit bsr_phase bsr_axis bsr_angle].
  split; [reflexivity|]. pose proof ATOL_pos. split; [rabs|].
  left. split; [|rabs].
  unfold Axis_allclose, Axis_value, axis_345, axis_345_near.
  cbn [axis_x axis_y axis_z].
  rewrite np_default_rtol_val, np_default_atol_val.
  repeat split; rabs.
Qed.

(** C4 at a concrete pair of rotations. *)
Lemma BlochSphereRotation_eq_spec_witness :
  Axis_is_unit (bsr_axis rot_345_near) /\
  (BlochSphereRotation_eq rot_345 rot_345_near = true <->
   BlochSphereRotation_eq_allclose rot_345 rot_345_near).
Proof.
  split.
  - exact axis_345_near_unit.
  - apply (BlochSphereRotation_eq_spec rot_345 rot_345_near).
    exact axis_345_near_unit.
Defined.

(** C4, as stated, fails: [rot_345] and [rot_345_near] compare equal
    although their axes differ by more than [ATOL] (by about [1.28e-6] in
    the first component). *)
Lemma BlochSphereRotation_eq_not_within_ATOL :
  ~ (BlochSphereRotation_eq rot_345 rot_345_near = true <->
     BlochSphereRotation_eq_within_ATOL rot_345 rot_345_near).
Proof.
  intros [H _]. specialize (H rot_345_eq).
  destruct H as (_ & _ & [[(H & _) _] | [(H & _) _]]);
    unfold within_ATOL, rot_345, rot_345_near, axis_345, axis_345_near,
      Axis_opp in H;
    cbn [bsr_axis axis_x] in H; rewrite ATOL_val in H; revert H; rabs.
Qed.

(* ===================================================================== *)
(** * MatrixGate construction                                              *)
(* ===================================================================== *)

Lemma difference_singleton_subseteq (s : gset Qubit) (x : Qubit) :
  s ∖ {[x]} ⊆ s.
Proof. apply subseteq_difference_l. reflexivity. Qed.

Lemma size_list_to_set_le (l : list Qubit) :
  (size (list_to_set l : gset Qubit) <= length l)%nat.
Proof.
  induction l as [|x l IH]; [reflexivity|].
  rewrite list_to_set_cons, size_union_alt, size_singleton. cbn [length].
  pose proof (subseteq_size _ _
                (difference_singleton_subseteq (list_to_set l) x)).
  lia.
Qed.

(** A list has as many elements as the set of its elements exactly when
    no element is repeated. *)
Lemma size_list_to_set_NoDup (l : list Qubit) :
  size (list_to_set l : gset Qubit) = length l <-> NoDup l.
Proof.
  split; [|apply size_list_to_set].
  induction l as [|x l IH]; intros Hsize; [constructor|].
  rewrite list_to_set_cons, size_union_alt, size_singleton in Hsize.
  cbn [length] in Hsize.
  pose proof (size_list_to_set_le l) as Hle.
  pose proof (subseteq_size _ _
                (difference_singleton_subseteq (list_to_set l) x)) as Hs.
  constructor.
  - intros Hin.
    assert (Hlt : (size (list_to_set l ∖ {[x]} : gset Qubit) <
                   size (list_to_set l : gset Qubit))%nat).
    { apply subset_size, subset_difference_elem_of.
      apply elem_of_list_to_set, Hin. }
    lia.
  - apply IH. lia.
Qed.

Lemma check_repeated_qubit_operands_spec (qubits : list Qubit) :
  check_repeated_qubit_operands qubits = true <-> ~ NoDup qubits.
Proof.
  unfold check_repeated_qubit_operands.
  rewrite negb_true_iff, Nat.eqb_neq, <- size_list_to_set_NoDup. 
  split; intros H E; apply H; symmetry; exact E.
Qed.

(** C5: MatrixGate construction raises exactly when there are fewer than
    two operands, or a qubit is repeated among them, or the matrix shape is
    not [(2^n, 2^n)]; each error it raises is the one of a condition that
    holds; and when none holds it returns the gate that stores the matrix,
    the operands and the metadata as given. *)
Theorem MatrixGate_init_spec (matrix : NDArray) (operands : list Qubit)
    (generator : option (Generator Gate))
    (arguments : option (list Expression)) :
  let construction := MatrixGate_init matrix operands generator arguments in
  let bad := (length operands < 2)%nat \/ ~ NoDup operands \/
             nd_shape matrix <> expected_shape operands in
  (raises construction <-> bad) /\
  (forall e, construction = Raise e ->
     (e = InvalidOperandCount /\ (length operands < 2)%nat) \/
     (e = DuplicateOperand /\ ~ NoDup operands) \/
     (e = MatrixShapeMismatch /\ nd_shape matrix <> expected_shape operands)) /\
  (~ bad ->
     construction = Ok (mkMatrixGate generator arguments matrix operands)).
Proof.
  cbv zeta. unfold MatrixGate_init, raises.
  fold (expected_shape operands).
  destruct (length operands <? 2)%nat eqn:Hlen.
  { apply Nat.ltb_lt in Hlen. repeat split.
    - intros _. left. exact Hlen.
    - intros _. eauto.
    - intros e [= <-]. left. split; [reflexivity | exact Hlen].
    - intros H. exfalso. apply H. left. exact Hlen. }
  apply Nat.ltb_ge in Hlen.
  destruct (check_repeated_qubit_operands operands) eqn:Hrep.
  { apply check_repeated_qubit_operands_spec in Hrep. repeat split.
    - intros _. right. left. exact Hrep.
    - intros _. eauto.
    - intros e [= <-]. right. left. split; [reflexivity | exact Hrep].
    - intros H. exfalso. apply H. right. left. exact Hrep. }
  assert (Hnd : NoDup operands).
  { destruct (decide (NoDup operands)) as [H | H]; [exact H|].
    apply check_repeated_qubit_operands_spec in H. congruence. }
  destruct (decide (nd_shape matrix = expected_shape operands)) as [Hs | Hs].
  - rewrite bool_decide_eq_true_2 by exact Hs. cbn [negb]. repeat split.
    + intros [e He]. discriminate.
    + intros [H | [H | H]]; [lia | tauto | tauto].
    + intros e He. discriminate.
  - rewrite bool_decide_eq_false_2 by exact Hs. cbn [negb]. repeat split.
    + intros _. right. right. exact Hs.
    + intros _. eauto.
    + intros e [= <-]. right. right. split; [reflexivity | exact Hs].
    + intros H. exfalso. apply H. right. right. exact Hs.
Qed.

(* ===================================================================== *)
(** * The named-callable protocol                                          *)
(* ===================================================================== *)

Section CallFacts.
Context {V : Type}.
Implicit Types (params : list (Param V)) (args vs ws : list V)
               (kwargs : gmap string V).

Lemma bind_params_length params : forall args kwargs vs,
  bind_params params args kwargs = Ok vs -> length vs = length params.
Proof.
  induction params as [|p ps IH]; intros args kwargs vs H; cbn in H.
  - destruct args; [injection H as <-; reflexivity | discriminate].
  - destruct args as [|a args'].
    + destruct (kwargs !! par_name p) as [v|].
      * destruct (bind_params ps [] kwargs) as [vs'|] eqn:E; [|discriminate].
        injection H as <-. cbn. f_equal. eauto.
      * destruct (par_default p) as [d|]; [|discriminate].
        destruct (bind_params ps [] kwargs) as [vs'|] eqn:E; [|discriminate].
        injection H as <-. cbn. f_equal. eauto.
    + destruct (kwargs !! par_name p); [discriminate|].
      destruct (bind_params ps args' kwargs) as [vs'|] eqn:E; [|discriminate].
      injection H as <-. cbn. f_equal. eauto.
Qed.

(** When both the call and the wrapper's loop succeed, the loop rebuilds
    exactly the values that the call bound. *)
Lemma collect_all_args_bound params : forall args kwargs i vs ws,
  bind_params params (drop i args) kwargs = Ok vs ->
  collect_all_args params args kwargs i = Ok ws ->
  ws = vs.
Proof.
  induction params as [|p ps IH]; intros args kwargs i vs ws Hb Hc;
    cbn in Hb, Hc.
  - injection Hc as <-. destruct (drop i args); [|discriminate].
    injection Hb as <-. reflexivity.
  - destruct (drop i args) as [|a rest] eqn:Hd.
    + assert (Hi : args !! i = None).
      { apply lookup_ge_None. apply drop_nil_inv in Hd. exact Hd. }
      rewrite Hi in Hc.
      destruct (kwargs !! par_name p) as [v|]; [|discriminate].
      destruct (bind_params ps [] kwargs) as [vs'|] eqn:E; [|discriminate].
      destruct (collect_all_args ps args kwargs i) as [ws'|] eqn:E';
        [|discriminate].
      injection Hb as <-. injection Hc as <-. f_equal.
      apply (IH args kwargs i); [rewrite Hd; exact E | exact E'].
    + assert (Hi : args !! i = Some a).
      { rewrite <- (Nat.add_0_r i), <- lookup_drop, Hd. reflexivity. }
      assert (Hd' : drop (S i) args = rest).
      { replace (S i) with (i + 1)%nat by lia.
        rewrite <- drop_drop, Hd. reflexivity. }
      rewrite Hi in Hc.
      destruct (kwargs !! par_name p); [discriminate|].
      destruct (bind_params ps rest kwargs) as [vs'|] eqn:E; [|discriminate].
      destruct (collect_all_args ps args kwargs (S i)) as [ws'|] eqn:E';
        [|discriminate].
      injection Hb as <-. injection Hc as <-. f_equal.
      apply (IH args kwargs (S i)); [rewrite Hd'; exact E | exact E'].
Qed.

(** A purely positional call with one value per parameter binds them in
    order, and the loop returns them unchanged. *)
Lemma bind_params_positional params : forall vs,
  length vs = length params -> bind_params params vs ∅ = Ok vs.
Proof.
  induction params as [|p ps IH]; intros [|v vs] H; cbn in *; try lia;
    [reflexivity|].
  rewrite lookup_empty, IH by lia. reflexivity.
Qed.

Lemma bind_arguments_positional params vs :
  length vs = length params -> bind_arguments params vs ∅ = Ok vs.
Proof.
  intros H. unfold bind_arguments.
  rewrite bool_decide_eq_true_2
    by (rewrite dom_empty_L; apply empty_subseteq).
  apply bind_params_positional, H.
Qed.

Lemma collect_all_args_positional params : forall pre vs,
  length vs = length params ->
  collect_all_args params (pre ++ vs)%list ∅ (length pre) = Ok vs.
Proof.
  induction params as [|p ps IH]; intros pre [|v vs] H; cbn in *; try lia;
    [reflexivity|].
  rewrite lookup_empty.
  rewrite lookup_app_r by lia. rewrite Nat.sub_diag. cbn.
  specialize (IH (pre ++ [v])%list vs).
  rewrite <- app_assoc, length_app in IH. cbn in IH.
  rewrite Nat.add_1_r in IH. rewrite IH by lia. reflexivity.
Qed.
End CallFacts.

#[global] Instance Gate_meta_laws : NodeMetaLaws Gate.
Proof. split; intros [r | m | g a c t] ?; reflexivity. Qed.

#[global] Instance Measure_meta_laws : NodeMetaLaws Measure.
Proof. split; intros [] ?; reflexivity. Qed.

#[global] Instance Reset_meta_laws : NodeMetaLaws Reset.
Proof. split; intros [] ?; reflexivity. Qed.

Section NamedCallable.
Context {N : Type} `{NodeMetaLaws N}.

(** What a successful call through a named wrapper returns: the node the
    generator built, stamped with the generator and with the values bound
    to its parameters, in declaration order. *)
Lemma named_callable_inv (g : Generator N) args kwargs (n : N) :
  named_callable g args kwargs = Ok n ->
  exists bound built,
    bind_arguments (gen_params g) args kwargs = Ok bound /\
    gen_body g bound = Ok built /\
    n = set_arguments (set_generator built (Some g)) (Some bound).
Proof.
  unfold named_callable, call_generator. intros Hn.
  destruct (bind_arguments (gen_params g) args kwargs) as [bound|] eqn:Hb;
    [|discriminate].
  cbn [rbind] in Hn.
  destruct (gen_body g bound) as [built|] eqn:Hg; [|discriminate].
  cbn [rbind] in Hn.
  destruct (collect_all_args (gen_params g) args kwargs 0) as [ws|] eqn:Hc;
    [|discriminate].
  cbn [rbind] in Hn. injection Hn as <-.
  exists bound, built. repeat split; [exact Hg|].
  unfold bind_arguments in Hb. case_bool_decide; [|discriminate].
  rewrite (collect_all_args_bound (gen_params g) args kwargs 0%nat bound ws);
    auto.
Qed.

Lemma named_callable_roundtrip (g : Generator N) args kwargs (n : N) :
  named_callable g args kwargs = Ok n ->
  exists bound,
    bind_arguments (gen_params g) args kwargs = Ok bound /\
    node_generator n = Some g /\
    node_arguments n = Some bound /\
    invoke_generator n = Ok n.
Proof.
  intros Hn. destruct (named_callable_inv g args kwargs n Hn)
    as (bound & built & Hb & Hg & ->).
  exists bound. split; [exact Hb|].
  assert (Hlen : length bound = length (gen_params g)).
  { unfold bind_arguments in Hb. case_bool_decide; [|discriminate].
    eapply bind_params_length, Hb. }
  unfold invoke_generator.
  rewrite generator_set_arguments, generator_set_generator,
    arguments_set_arguments.
  repeat split.
  unfold named_callable, call_generator.
  rewrite bind_arguments_positional by exact Hlen. cbn [rbind].
  rewrite Hg. cbn [rbind].
  pose proof (collect_all_args_positional (gen_params g) [] bound Hlen)
    as Hc.
  cbn [app length] in Hc. rewrite Hc. reflexivity.
Qed.
End NamedCallable.

Lemma BlochSphereRotation_eq_refl (r : BlochSphereRotation) :
  BlochSphereRotation_eq r r = true.
Proof.
  unfold BlochSphereRotation_eq. pose proof ATOL_pos.
  rewrite bool_decide_eq_true_2 by reflexivity. cbn [negb].
  rewrite !Rminus_diag, Rabs_R0.
  replace (Rltb ATOL 0) with false by (symmetry; apply Rltb_false; lra).
  replace (np_allclose _ _ _ _) with true.
  - apply Rltb_true. lra.
  - symmetry. apply np_allclose_axis_value.
    unfold Axis_allclose, Axis_value.
    rewrite np_default_rtol_val, np_default_atol_val, !Rminus_diag, Rabs_R0.
    pose proof (Rabs_pos (axis_x (bsr_axis r))).
    pose proof (Rabs_pos (axis_y (bsr_axis r))).
    pose proof (Rabs_pos (axis_z (bsr_axis r))).
    repeat split; lra.
Qed.

Lemma Measure_eq_refl (m : Measure) : Measure_eq m m = true.
Proof.
  unfold Measure_eq. rewrite bool_decide_eq_true_2 by reflexivity.
  rewrite within_ATOL_allclose by apply Axis_within_ATOL_refl. reflexivity.
Qed.

Lemma Reset_eq_refl (r : Reset) : Reset_eq r r = true.
Proof. unfold Reset_eq. apply bool_decide_eq_true_2. reflexivity. Qed.

(** C7: for every gate, measurement or reset built through a named wrapper,
    whatever mix of positional and keyword arguments the call used, the
    node's arguments are the supplied values in the declared parameter
    order, and calling the node's generator on the node's arguments returns
    the node again, equal to the original under [==].  For gates that are
    not rotations [==] is the matrix oracle, of which only reflexivity is
    used. *)
Theorem named_generator_roundtrip (compare_gates : Gate -> Gate -> bool) :
  (forall g, compare_gates g g = true) ->
  (forall (g : Generator Gate) args kwargs n,
     named_gate g args kwargs = Ok n ->
     roundtrip (Gate___eq__ compare_gates) g args kwargs n) /\
  (forall (g : Generator Measure) args kwargs n,
     named_measurement g args kwargs = Ok n ->
     roundtrip Measure_eq g args kwargs n) /\
  (forall (g : Generator Reset) args kwargs n,
     named_reset g args kwargs = Ok n ->
     roundtrip Reset_eq g args kwargs n).
Proof.
  intros Hrefl. unfold named_gate, named_measurement, named_reset, roundtrip.
  repeat split; intros g args kwargs n Hn;
    destruct (named_callable_roundtrip g args kwargs n Hn)
      as (bound & Hb & Hg & Ha & Hi);
    exists bound, n; repeat split; auto.
  - destruct n as [r | m | gen a c t]; cbn; auto.
    apply BlochSphereRotation_eq_refl.
  - apply Measure_eq_refl.
  - apply Reset_eq_refl.
Qed.

(** C7 at a call that mixes a positional and a keyword argument:
    [Rx(q0, theta=Float(1))]. *)
Lemma named_generator_roundtrip_witness :
  exists n,
    named_gate Rx_fn [EQubit q0] {["theta" := Float 1]} = Ok n /\
    roundtrip (Gate___eq__ (fun _ _ => true)) Rx_fn [EQubit q0]
      {["theta" := Float 1]} n /\
    node_arguments n = Some [EQubit q0; Float 1].
Proof.
  eexists. split; [reflexivity|]. split.
  - apply (proj1 (named_generator_roundtrip (fun _ _ => true)
                    (fun _ => eq_refl))).
    reflexivity.
  - reflexivity.
Defined.

(** [Measure.__init__] has no parameter called [qubits]: every call that
    passes that keyword fails while its arguments are bound. *)
Lemma Measure_call_qubits_keyword (args : list pyobj)
    (kwargs : gmap string pyobj) :
  is_Some (kwargs !! "qubits") ->
  Measure_call args kwargs =
  Raise (TypeError "got an unexpected keyword argument").
Proof.
  intros Hq. unfold Measure_call, bind_arguments.
  rewrite bool_decide_eq_false_2; [reflexivity|].
  intros Hsub. apply elem_of_dom in Hq. apply Hsub in Hq.
  apply elem_of_list_to_set in Hq. unfold param_names in Hq. cbn in Hq.
  repeat (apply elem_of_cons in Hq as [Hq | Hq]; [discriminate|]).
  apply elem_of_nil in Hq. exact Hq.
Qed.

Lemma measure_generator_fn_raises (bound : list Expression) :
  raises (gen_body measure_generator_fn bound).
Proof.
  unfold raises. cbn [gen_body measure_generator_fn].
  destruct bound as [|q [|b [|]]]; eauto.
  destruct (Expression_index q) as [i|e]; cbn [rbind];
    try rewrite Measure_call_qubits_keyword
      by (rewrite lookup_insert_eq; eauto);
    eauto.
Qed.

Lemma measure_z_generator_fn_raises (bound : list Expression) :
  raises (gen_body measure_z_generator_fn bound).
Proof.
  unfold raises. cbn [gen_body measure_z_generator_fn].
  destruct bound as [|q [|b [|]]];
    try rewrite Measure_call_qubits_keyword
      by (rewrite lookup_insert_eq; eauto);
    eauto.
Qed.

Lemma named_callable_raises {N : Type} `{NodeMeta N} (g : Generator N)
    args kwargs :
  (forall bound, raises (gen_body g bound)) ->
  raises (named_callable g args kwargs).
Proof.
  intros Hg. unfold named_callable, call_generator, raises.
  destruct (bind_arguments (gen_params g) args kwargs) as [bound|e]; cbn;
    [|eauto].
  destruct (Hg bound) as [e ->]. cbn. eauto.
Qed.

(** C10: for every qubit [q] and bit [b], [measure(q, b)] and
    [measure_z(q, b)] raise the [TypeError] of the unexpected keyword
    [qubits], and no call of either generator, with any arguments, returns
    a Measure node. *)
Theorem default_measurements_raise :
  (forall (q : Qubit) (b : Bit),
     measure [EQubit q; EBit b] ∅ = Raise unexpected_qubits /\
     measure_z [EQubit q; EBit b] ∅ = Raise unexpected_qubits) /\
  (forall args kwargs,
     raises (measure args kwargs) /\ raises (measure_z args kwargs)).
Proof.
  split.
  - intros q b. unfold measure, measure_z, named_measurement, named_callable,
      call_generator.
    rewrite !bind_arguments_positional by reflexivity. cbn [rbind].
    cbn [gen_body measure_generator_fn measure_z_generator_fn
         Expression_index rbind].
    rewrite !Measure_call_qubits_keyword
      by (rewrite lookup_insert_eq; eauto).
    split; reflexivity.
  - intros args kwargs. split; apply named_callable_raises.
    + apply measure_generator_fn_raises.
    + apply measure_z_generator_fn_raises.
Qed.

(* ===================================================================== *)
(** * The A-B-A decomposition engine: the guard and the degenerate angle   *)
(* ===================================================================== *)

Lemma ABADecomposer_init_ok (d : ABADecomposer) :
  exists self, ABADecomposer_init d = Ok self /\
    (forall axis, Axis_getitem axis (index_a self) = Ok (component_a d axis)) /\
    (forall axis, Axis_getitem axis (index_b self) = Ok (component_b d axis)).
Proof. destruct d; eexists; split; try reflexivity; split; reflexivity. Qed.

Lemma get_decomposition_angles_unfold (d : ABADecomposer) (alpha : R)
    (axis : Axis) :
  get_decomposition_angles d alpha (AxisLike_axis axis) =
  if negb (Rltb (- PI + ATOL) alpha && Rleb alpha (PI + ATOL)) then
    Raise UnnormalizedAngle
  else aba_angles (component_a d axis) (component_b d axis) alpha.
Proof. destruct d; reflexivity. Qed.

Lemma guard_accepts (alpha : R) :
  Rltb (- PI + ATOL) alpha && Rleb alpha (PI + ATOL) = true <->
  angle_accepted alpha.
Proof.
  unfold angle_accepted. rewrite andb_true_iff, Rltb_true, Rleb_true. tauto.
Qed.

Lemma math_acos_ok (x : R) : -1 <= x <= 1 -> math_acos x = Ok (acos x).
Proof.
  intros [H1 H2]. unfold math_acos.
  apply Rleb_true in H1, H2. rewrite H1, H2. reflexivity.
Qed.

Lemma math_sqrt_ok (x : R) : 0 <= x -> math_sqrt x = Ok (sqrt x).
Proof. intros H. unfold math_sqrt. apply Rleb_true in H. rewrite H. reflexivity. Qed.

Lemma clamp_unit_bounds (x : R) : -1 <= clamp_unit x <= 1.
Proof.
  unfold clamp_unit, Rmax, Rmin.
  destruct (Rle_dec x 1); destruct (Rle_dec _ (-1)); lra.
Qed.

Lemma clamp_unit_id (x : R) : -1 <= x <= 1 -> clamp_unit x = x.
Proof.
  intros H. unfold clamp_unit, Rmax, Rmin.
  destruct (Rle_dec x 1); destruct (Rle_dec _ (-1)); lra.
Qed.

Lemma unit_components (d : ABADecomposer) (axis : Axis) :
  Axis_is_unit axis ->
  component_a d axis * component_a d axis +
  component_b d axis * component_b d axis <= 1.
Proof.
  unfold Axis_is_unit. destruct axis as [x y z]; cbn [axis_x axis_y axis_z].
  intros Hu. destruct d; cbn; nra.
Qed.

Lemma math_acos_error (x : R) (e : exn) :
  math_acos x = Raise e -> e = ValueError "math domain error".
Proof. unfold math_acos. destruct (_ && _); [discriminate|]. congruence. Qed.

Lemma math_sqrt_error (x : R) (e : exn) :
  math_sqrt x = Raise e -> e = ValueError "math domain error".
Proof. unfold math_sqrt. destruct (Rleb 0 x); [discriminate|]. congruence. Qed.

Ltac aba_step :=
  match goal with
  | |- context [math_acos ?x] =>
      let E := fresh "E" in
      destruct (math_acos x) eqn:E;
      [|apply math_acos_error in E]; cbn [rbind]
  | |- context [math_sqrt ?x] =>
      let E := fresh "E" in
      destruct (math_sqrt x) eqn:E;
      [|apply math_sqrt_error in E]; cbn [rbind]
  | |- context [if ?c then _ else _] => destruct c
  end.

(** Below the guard the only error is a domain error of [math]. *)
Lemma aba_angles_error (a b alpha : R) (e : exn) :
  aba_angles a b alpha = Raise e -> e = ValueError "math domain error".
Proof.
  unfold aba_angles. cbv zeta.
  repeat aba_step; intros H; try discriminate H;
    injection H as <-; assumption.
Qed.

(** The general branch clamps what it hands to [acos]: it never fails. *)
Lemma aba_angles_returns_general (a b alpha : R) :
  ATOL <= Rabs (alpha - PI) -> returns (aba_angles a b alpha).
Proof.
  intros Hg. unfold returns, aba_angles.
  replace (Rltb (Rabs (alpha - PI)) ATOL) with false
    by (symmetry; apply Rltb_false; lra).
  rewrite math_sqrt_ok by nra. cbn [rbind].
  rewrite math_acos_ok by apply clamp_unit_bounds. cbn [rbind].
  destruct (Rltb _ ATOL).
  - cbn. eauto.
  - rewrite math_acos_ok by apply clamp_unit_bounds. cbn. eauto.
Qed.

(** Below the guard no step of the computation fails, the unclamped
    quotient apart, when the two components that are read lie in
    [[-1, 1]]. *)
Lemma aba_angles_returns (a b alpha : R) :
  -1 <= a <= 1 -> -1 <= b <= 1 ->
  ~ unclamped_acos_reached a alpha ->
  returns (aba_angles a b alpha).
Proof.
  intros Ha Hb Hn.
  destruct (Rlt_le_dec (Rabs (alpha - PI)) ATOL) as [Hd|Hd];
    [|apply aba_angles_returns_general; exact Hd].
  unfold returns, aba_angles.
  replace (Rltb (Rabs (alpha - PI)) ATOL) with true
    by (symmetry; apply Rltb_true; exact Hd).
  destruct (Rltb (Rabs a) ATOL) eqn:H0.
  - rewrite (math_acos_ok b Hb). cbn. eauto.
  - rewrite (math_acos_ok a Ha). cbn [rbind].
    destruct (Rltb (Rabs (a - 1)) ATOL || Rltb (Rabs (a + 1)) ATOL) eqn:H1.
    + cbn. eauto.
    + exfalso. apply Hn. apply orb_false_iff in H1. destruct H1 as [H1 H2].
      apply Rltb_false in H0, H1, H2.
      unfold unclamped_acos_reached. lra.
Qed.

Lemma unit_component_bounds (d : ABADecomposer) (axis : Axis) :
  Axis_is_unit axis ->
  -1 <= component_a d axis <= 1 /\ -1 <= component_b d axis <= 1.
Proof.
  intros Hu. pose proof (unit_components d axis Hu). split; nra.
Qed.

Lemma get_decomposition_angles_rejects (d : ABADecomposer) (alpha : R)
    (axis : Axis) :
  ~ angle_accepted alpha ->
  get_decomposition_angles d alpha (AxisLike_axis axis) = Raise UnnormalizedAngle.
Proof.
  intros H. rewrite get_decomposition_angles_unfold.
  destruct (Rltb (- PI + ATOL) alpha && Rleb alpha (PI + ATOL)) eqn:E;
    [|reflexivity].
  apply guard_accepts in E. contradiction.
Qed.

Lemma get_decomposition_angles_accepts (d : ABADecomposer) (alpha : R)
    (axis : Axis) :
  angle_accepted alpha ->
  get_decomposition_angles d alpha (AxisLike_axis axis) =
  aba_angles (component_a d axis) (component_b d axis) alpha.
Proof.
  intros H. rewrite get_decomposition_angles_unfold.
  apply guard_accepts in H. rewrite H. reflexivity.
Qed.

(** C2, as the code has it: for every unit axis,
    [get_decomposition_angles] raises the error of the normalisation guard
    exactly when [alpha] lies outside [(-pi + ATOL, pi + ATOL]]; for every
    [alpha] inside that interval it returns a triple of angles, unless the
    call reaches the unclamped [acos] of the degenerate branch, a case about
    which nothing is stated. *)
Theorem get_decomposition_angles_guard (d : ABADecomposer) (alpha : R)
    (axis : Axis) :
  Axis_is_unit axis ->
  (get_decomposition_angles d alpha (AxisLike_axis axis) =
     Raise UnnormalizedAngle <->
   ~ angle_accepted alpha) /\
  (angle_accepted alpha ->
   ~ unclamped_acos_reached (component_a d axis) alpha ->
   returns (get_decomposition_angles d alpha (AxisLike_axis axis))).
Proof.
  intros Hu. split; [split|].
  - intros He Hacc.
    rewrite get_decomposition_angles_accepts in He by exact Hacc.
    apply aba_angles_error in He. discriminate He.
  - apply get_decomposition_angles_rejects.
  - intros Hacc Hn.
    rewrite get_decomposition_angles_accepts by exact Hacc.
    destruct (unit_component_bounds d axis Hu) as [Ha Hb].
    apply aba_angles_returns; assumption.
Qed.

(** C2 at the Z-Y-Z decomposer, the angle 0 and the axis [(1, 0, 0)]. *)
Lemma get_decomposition_angles_guard_witness :
  Axis_is_unit axis_e1 /\
  returns (get_decomposition_angles ZYZDecomposer 0 (AxisLike_axis axis_e1)).
Proof.
  split; [exact axis_e1_unit|].
  apply (proj2 (get_decomposition_angles_guard ZYZDecomposer 0 axis_e1
                  axis_e1_unit)).
  - unfold angle_accepted. pose proof PI_bounds. rewrite ATOL_val. lra.
  - unfold unclamped_acos_reached. intros [H _]. revert H.
    pose proof PI_bounds. rewrite ATOL_val. rabs.
Defined.

(** C2, as stated, fails: [alpha = -pi + ATOL/2] lies inside
    [(-pi - ATOL, pi + ATOL]], and [get_decomposition_angles] raises. *)
Lemma get_decomposition_angles_guard_not_symmetric :
  ~ (raises (get_decomposition_angles ZYZDecomposer (- PI + ATOL / 2)
               (AxisLike_axis axis_e1)) <->
     ~ angle_accepted_as_stated (- PI + ATOL / 2)).
Proof.
  intros [H _]. apply H.
  - exists UnnormalizedAngle. apply get_decomposition_angles_rejects.
    unfold angle_accepted. pose proof ATOL_pos. lra.
  - unfold angle_accepted_as_stated. pose proof ATOL_pos.
    pose proof PI_bounds. lra.
Qed.

Lemma angle_accepted_PI : angle_accepted PI.
Proof. unfold angle_accepted. pose proof PI_bounds. rewrite ATOL_val. lra. Qed.

Lemma Rltb_Rabs_0_ATOL (x : R) : x = 0 -> Rltb (Rabs x) ATOL = true.
Proof. intros ->. apply Rltb_true. rewrite Rabs_R0. apply ATOL_pos. Qed.

Lemma Rltb_Rabs_big (x : R) : 1 <= Rabs x -> Rltb (Rabs x) ATOL = false.
Proof. intros H. apply Rltb_false. rewrite ATOL_val. lra. Qed.

Lemma acos_m1 : acos (-1) = PI.
Proof. replace (-1) with (Ropp 1) by lra. rewrite acos_opp, acos_1. lra. Qed.

Lemma aba_angles_PI_a0 (b : R) :
  -1 <= b <= 1 -> aba_angles 0 b PI = Ok (acos b, PI, - acos b).
Proof.
  intros Hb. unfold aba_angles.
  rewrite (Rltb_Rabs_0_ATOL (PI - PI)) by lra.
  rewrite (Rltb_Rabs_0_ATOL 0) by reflexivity.
  rewrite (math_acos_ok b Hb). cbn [rbind].
  repeat f_equal; lra.
Qed.

Lemma aba_angles_PI_a1 (b : R) : aba_angles 1 b PI = Ok (PI, 0, 0).
Proof.
  unfold aba_angles.
  rewrite (Rltb_Rabs_0_ATOL (PI - PI)) by lra.
  rewrite (Rltb_Rabs_big 1) by (rewrite Rabs_R1; lra).
  rewrite math_acos_ok by lra. cbn [rbind].
  rewrite (Rltb_Rabs_0_ATOL (1 - 1)) by lra. cbn [orb rbind].
  rewrite acos_1. repeat f_equal; lra.
Qed.

Lemma aba_angles_PI_am1 (b : R) : aba_angles (-1) b PI = Ok (PI, 2 * PI, 0).
Proof.
  unfold aba_angles.
  rewrite (Rltb_Rabs_0_ATOL (PI - PI)) by lra.
  rewrite (Rltb_Rabs_big (-1)) by (unfold Rabs; destruct Rcase_abs; lra).
  rewrite math_acos_ok by lra. cbn [rbind].
  rewrite (Rltb_Rabs_0_ATOL (-1 + 1)) by lra.
  rewrite orb_true_r. cbn [rbind].
  rewrite acos_m1. repeat f_equal; lra.
Qed.

(** C6: at [alpha = pi] and for every unit axis, in the cases that the
    degenerate branch singles out [get_decomposition_angles] returns, with
    the documented values: when [axis[index_a] = 0] the middle angle is
    [pi]; when [axis[index_a] = 1] the result is [(pi, 0, 0)] and when
    [axis[index_a] = -1] it is [(pi, 2 pi, 0)], so that the middle angle is
    [2 acos(axis[index_a])] and the last angle is zero. *)
Theorem get_decomposition_angles_at_PI (d : ABADecomposer) (axis : Axis) :
  Axis_is_unit axis ->
  let angles := get_decomposition_angles d PI (AxisLike_axis axis) in
  (component_a d axis = 0 ->
   angles = Ok (acos (component_b d axis), PI, - acos (component_b d axis))) /\
  (component_a d axis = 1 ->
   angles = Ok (PI, 2 * acos (component_a d axis), 0) /\
   2 * acos (component_a d axis) = 0) /\
  (component_a d axis = -1 ->
   angles = Ok (PI, 2 * acos (component_a d axis), 0) /\
   2 * acos (component_a d axis) = 2 * PI).
Proof.
  intros Hu. cbv zeta.
  rewrite get_decomposition_angles_accepts by exact angle_accepted_PI.
  pose proof (unit_components d axis Hu) as Hab.
  repeat split.
  - intros Ha. rewrite Ha in *. apply aba_angles_PI_a0. nra.
  - rewrite H, acos_1. rewrite aba_angles_PI_a1. repeat f_equal; lra.
  - rewrite H, acos_1. lra.
  - rewrite H, acos_m1. rewrite aba_angles_PI_am1. reflexivity.
  - rewrite H, acos_m1. reflexivity.
Qed.

Lemma axis_e3_unit : Axis_is_unit axis_e3.
Proof. unfold Axis_is_unit, axis_e3; cbn [axis_x axis_y axis_z]. lra. Qed.

(** C6 at the Z-Y-Z decomposer and the axis [(0, 0, 1)], where
    [axis[index_a] = 1]. *)
Lemma get_decomposition_angles_at_PI_witness :
  Axis_is_unit axis_e3 /\
  get_decomposition_angles ZYZDecomposer PI (AxisLike_axis axis_e3) =
  Ok (PI, 2 * acos 1, 0).
Proof.
  split; [exact axis_e3_unit|].
  pose proof (get_decomposition_angles_at_PI ZYZDecomposer axis_e3
                axis_e3_unit) as H.
  cbv zeta in H. destruct H as (_ & H & _).
  apply H. reflexivity.
Defined.

Lemma sqrt2_bounds : 1 < sqrt 2 < 2.
Proof.
  split.
  - rewrite <- sqrt_1 at 1. apply sqrt_lt_1; lra.
  - replace 2 with (sqrt 4) at 2.
    + apply sqrt_lt_1; lra.
    + replace 4 with (2 * 2) by lra. apply sqrt_square. lra.
Qed.

Lemma inv_sqrt2_bounds : 1 / 2 < 1 / sqrt 2 < 1.
Proof.
  pose proof sqrt2_bounds as [H1 H2].
  assert (E : 1 / sqrt 2 * sqrt 2 = 1) by (field; lra).
  assert (P : 0 < 1 / sqrt 2) by (apply Rdiv_lt_0_compat; lra).
  split; nra.
Qed.

Lemma math_atan2_pos_x (y x : R) : 0 < x -> math_atan2 y x = atan (y / x).
Proof.
  intros H. unfold math_atan2. apply Rltb_true in H. rewrite H. reflexivity.
Qed.

(** The decomposition of a quarter turn about an axis orthogonal to both
    generator axes. *)
Lemma aba_angles_quarter_turn :
  aba_angles 0 0 (PI / 2) = Ok (PI / 2, PI / 2, - (PI / 2)).
Proof.
  pose proof PI_bounds as HPI. pose proof inv_sqrt2_bounds as Hs.
  unfold aba_angles.
  replace (Rltb (Rabs (PI / 2 - PI)) ATOL) with false
    by (symmetry; apply Rltb_false; rewrite ATOL_val; rabs).
  replace (PI / 2 / 2) with (PI / 4) by lra.
  assert (E1 : 1 + (0 * tan (PI / 4)) ^ 2 = 1) by ring.
  rewrite E1, math_sqrt_ok by lra. cbn [rbind]. rewrite sqrt_1, Rmult_1_r.
  rewrite clamp_unit_id by (rewrite cos_PI4; lra).
  rewrite math_acos_ok by (rewrite cos_PI4; lra). cbn [rbind].
  rewrite acos_cos by lra.
  assert (Hc : math_copysign (2 * (PI / 4)) (PI / 2) = PI / 2).
  { unfold math_copysign.
    replace (Rleb 0 (PI / 2)) with true by (symmetry; apply Rleb_true; lra).
    rabs. }
  rewrite Hc. replace (PI / 2 / 2) with (PI / 4) by lra.
  replace (Rltb (Rabs (sin (PI / 4))) ATOL) with false
    by (symmetry; apply Rltb_false; rewrite sin_PI4, ATOL_val; rabs).
  assert (E2 : 0 * sin (PI / 4) / sin (PI / 4) = 0) by (unfold Rdiv; ring).
  rewrite E2, clamp_unit_id by lra.
  rewrite math_acos_ok by lra. cbn [rbind]. rewrite acos_0.
  rewrite math_atan2_pos_x by (rewrite cos_PI4; lra).
  assert (E3 : 0 * sin (PI / 4) / cos (PI / 4) = 0) by (unfold Rdiv; ring).
  rewrite E3, atan_0.
  repeat f_equal; lra.
Qed.

(** The angles depend on the axis only through the two components that
    are read: the third component is never looked at. *)
Lemma get_decomposition_angles_two_components (d : ABADecomposer)
    (alpha : R) (axis axis' : Axis) :
  component_a d axis = component_a d axis' ->
  component_b d axis = component_b d axis' ->
  get_decomposition_angles d alpha (AxisLike_axis axis) =
  get_decomposition_angles d alpha (AxisLike_axis axis').
Proof.
  intros Ha Hb. rewrite !get_decomposition_angles_unfold, Ha, Hb. reflexivity.
Qed.

Lemma axis_minus_e1_unit : Axis_is_unit axis_minus_e1.
Proof. unfold Axis_is_unit, axis_minus_e1; cbn [axis_x axis_y axis_z]. lra. Qed.

Lemma angle_accepted_quarter : angle_accepted (PI / 2).
Proof. unfold angle_accepted. pose proof PI_bounds. rewrite ATOL_val. lra. Qed.

(** No rotation is equal both to the quarter turn about [(1, 0, 0)] and to
    the quarter turn about [(-1, 0, 0)]. *)
Lemma quarter_turns_apart (c : BlochSphereRotation) :
  ~ (BlochSphereRotation_eq c (quarter_turn axis_e1) = true /\
     BlochSphereRotation_eq c (quarter_turn axis_minus_e1) = true).
Proof.
  intros [H1 H2].
  apply BlochSphereRotation_eq_elim in H1.
  apply BlochSphereRotation_eq_elim in H2.
  destruct H1 as (_ & _ & H1). destruct H2 as (_ & _ & H2).
  unfold quarter_turn, axis_e1, axis_minus_e1, Axis_allclose, Axis_value in *.
  cbn [bsr_axis bsr_angle axis_x axis_y axis_z map] in *.
  rewrite np_default_rtol_val, np_default_atol_val, ATOL_val in *.
  pose proof PI_bounds as HPI.
  destruct H1 as [[(A1 & _) B1] | [(A1 & _) B1]];
    destruct H2 as [[(A2 & _) B2] | [(A2 & _) B2]];
    clear - A1 A2 B1 B2 HPI; revert A1 A2 B1 B2; rabs.
Qed.

(** C1 fails on the code: the Z-Y-Z decomposer reads only the z and y
    components of the axis, so the quarter turns about [(1, 0, 0)] and about
    [(-1, 0, 0)] receive the same angles [(pi/2, pi/2, -pi/2)]; whatever
    rotation these three angles are composed to, it cannot be equal to both
    originals. *)
Theorem aba_round_trip_fails :
  get_decomposition_angles ZYZDecomposer (PI / 2) (AxisLike_axis axis_e1) =
    Ok (PI / 2, PI / 2, - (PI / 2)) /\
  get_decomposition_angles ZYZDecomposer (PI / 2)
      (AxisLike_axis axis_minus_e1) =
    Ok (PI / 2, PI / 2, - (PI / 2)) /\
  forall composed : BlochSphereRotation,
    ~ (BlochSphereRotation_eq composed (quarter_turn axis_e1) = true /\
       BlochSphereRotation_eq composed (quarter_turn axis_minus_e1) = true).
Proof.
  repeat split.
  - rewrite get_decomposition_angles_accepts by exact angle_accepted_quarter.
    exact aba_angles_quarter_turn.
  - rewrite get_decomposition_angles_accepts by exact angle_accepted_quarter.
    exact aba_angles_quarter_turn.
  - exact quarter_turns_apart.
Qed.

Lemma Axis_opp_unit (u : Axis) : Axis_is_unit u -> Axis_is_unit (Axis_opp u).
Proof.
  unfold Axis_is_unit, Axis_opp; cbn [axis_x axis_y axis_z]. intros H. nra.
Qed.

(** No rotation is equal both to the quarter turn about a unit axis and to
    the quarter turn about the opposite axis. *)
Lemma opposite_quarter_turns_apart (u : Axis) (c : BlochSphereRotation) :
  Axis_is_unit u ->
  ~ (BlochSphereRotation_eq c (quarter_turn u) = true /\
     BlochSphereRotation_eq c (quarter_turn (Axis_opp u)) = true).
Proof.
  intros Hu [H1 H2].
  apply BlochSphereRotation_eq_elim in H1.
  apply BlochSphereRotation_eq_elim in H2.
  destruct H1 as (_ & _ & H1). destruct H2 as (_ & _ & H2).
  unfold quarter_turn in H1, H2. cbn [bsr_axis bsr_angle] in H1, H2.
  pose proof PI_bounds as HPI.
  destruct H1 as [[A1 B1] | [A1 B1]]; destruct H2 as [[A2 B2] | [A2 B2]].
  - exact (allclose_both_signs_absurd (bsr_axis c) u Hu A1 A2).
  - rewrite ATOL_val in *. clear - B1 B2 HPI. revert B1 B2. rabs.
  - rewrite ATOL_val in *. clear - B1 B2 HPI. revert B1 B2. rabs.
  - exact (allclose_both_signs_absurd (bsr_axis c) (Axis_opp u)
             (Axis_opp_unit u Hu) A1 A2).
Qed.

(** The defect is common to the six decomposers: an axis orthogonal to both
    generator axes and its opposite receive the same angles, although their
    quarter turns are different rotations. *)
Lemma aba_ignores_orientation (d : ABADecomposer) (u : Axis) :
  Axis_is_unit u ->
  component_a d u = 0 -> component_b d u = 0 ->
  get_decomposition_angles d (PI / 2) (AxisLike_axis u) =
    Ok (PI / 2, PI / 2, - (PI / 2)) /\
  get_decomposition_angles d (PI / 2) (AxisLike_axis (Axis_opp u)) =
    Ok (PI / 2, PI / 2, - (PI / 2)) /\
  forall composed : BlochSphereRotation,
    ~ (BlochSphereRotation_eq composed (quarter_turn u) = true /\
       BlochSphereRotation_eq composed (quarter_turn (Axis_opp u)) = true).
Proof.
  intros Hu Ha Hb.
  assert (Ha' : component_a d (Axis_opp u) = 0).
  { revert Ha. destruct d, u; cbn; intros; lra. }
  assert (Hb' : component_b d (Axis_opp u) = 0).
  { revert Hb. destruct d, u; cbn; intros; lra. }
  repeat split.
  - rewrite get_decomposition_angles_accepts by exact angle_accepted_quarter.
    rewrite Ha, Hb. exact aba_angles_quarter_turn.
  - rewrite get_decomposition_angles_accepts by exact angle_accepted_quarter.
    rewrite Ha', Hb'. exact aba_angles_quarter_turn.
  - intros composed. apply opposite_quarter_turns_apart, Hu.
Qed.

(** ** The composition of the returned angles *)

Lemma quaternion_eq (p q : Quaternion) :
  qw p = qw q -> qx p = qx q -> qy p = qy q -> qz p = qz q -> p = q.
Proof. destruct p, q; cbn. intros -> -> -> ->. reflexivity. Qed.

Lemma inv_sqrt2_sqr : 1 / sqrt 2 * (1 / sqrt 2) = 1 / 2.
Proof.
  pose proof sqrt2_bounds as H.
  assert (E : sqrt 2 * sqrt 2 = 2) by (apply sqrt_sqrt; lra).
  replace (1 / sqrt 2 * (1 / sqrt 2)) with (1 / (sqrt 2 * sqrt 2))
    by (field; lra).
  rewrite E. reflexivity.
Qed.

(** The angles that the Z-Y-Z decomposer returns for both quarter turns
    compose to the quarter turn about [(1, 0, 0)], which is not the quarter
    turn about [(-1, 0, 0)], not even up to the sign that a global phase
    can contribute. *)
Lemma quarter_turn_composition :
  aba_composition ZYZDecomposer (PI / 2) (PI / 2) (- (PI / 2)) =
    rotation_quaternion axis_e1 (PI / 2) /\
  aba_composition ZYZDecomposer (PI / 2) (PI / 2) (- (PI / 2)) <>
    rotation_quaternion axis_minus_e1 (PI / 2) /\
  aba_composition ZYZDecomposer (PI / 2) (PI / 2) (- (PI / 2)) <>
    qopp (rotation_quaternion axis_minus_e1 (PI / 2)).
Proof.
  pose proof inv_sqrt2_bounds as Hs. pose proof inv_sqrt2_sqr as Hq.
  assert (E : aba_composition ZYZDecomposer (PI / 2) (PI / 2) (- (PI / 2)) =
              rotation_quaternion axis_e1 (PI / 2)).
  { unfold aba_composition, rotation_quaternion, qmul, axis_e1.
    cbn [ra rb native_axis qw qx qy qz axis_x axis_y axis_z].
    replace (- (PI / 2) / 2) with (- (PI / 4)) by lra.
    replace (PI / 2 / 2) with (PI / 4) by lra.
    rewrite cos_neg, sin_neg, cos_PI4, sin_PI4.
    set (c := 1 / sqrt 2) in *.
    apply quaternion_eq; cbn [qw qx qy qz]; nra. }
  rewrite E. unfold rotation_quaternion, qopp, axis_e1, axis_minus_e1.
  cbn [qw qx qy qz axis_x axis_y axis_z].
  replace (PI / 2 / 2) with (PI / 4) by lra. rewrite cos_PI4, sin_PI4.
  set (c := 1 / sqrt 2) in *.
  repeat split; intros H; injection H; intros; lra.
Qed.

(** ** Small angles *)

Lemma atan_le (x y : R) : x <= y -> atan x <= atan y.
Proof.
  intros [H | ->]; [left; apply atan_increasing; exact H | right; reflexivity].
Qed.

Lemma acos_le (x y : R) : -1 <= x -> x <= y -> y <= 1 -> acos y <= acos x.
Proof.
  intros Hx Hxy Hy.
  destruct (Rle_lt_dec (acos y) (acos x)) as [H | H]; [exact H|].
  exfalso.
  pose proof (acos_bound x) as Bx. pose proof (acos_bound y) as By.
  assert (Hc : cos (acos y) < cos (acos x))
    by (apply cos_decreasing_1; lra).
  rewrite !cos_acos in Hc by lra. lra.
Qed.

Lemma Rabs_sin_le (x : R) : - PI <= x <= PI -> Rabs (sin x) <= Rabs x.
Proof.
  intros Hx. pose proof PI_bounds as HPI.
  destruct (Rtotal_order x 0) as [H | [-> | H]].
  - assert (H1 : sin (- x) < - x) by (apply sin_lt_x; lra).
    assert (H2 : 0 <= sin (- x)) by (apply sin_ge_0; lra).
    rewrite sin_neg in H1, H2. rabs.
  - rewrite sin_0. lra.
  - assert (H1 : sin x < x) by (apply sin_lt_x; lra).
    assert (H2 : 0 <= sin x) by (apply sin_ge_0; lra).
    rabs.
Qed.

(** The angle [2 atan(a tan(h))] of the general branch is no larger than
    [2 h] in magnitude. *)
Lemma atan_scaled_tan_bound (a h : R) :
  -1 <= a <= 1 -> - (PI / 2) < h < PI / 2 ->
  Rabs (atan (a * tan h)) <= Rabs h.
Proof.
  intros Ha Hh.
  destruct (Rtotal_order h 0) as [H | [-> | H]].
  - assert (HT : tan h < 0) by (apply tan_lt_0; lra).
    assert (E : atan (tan h) = h) by (apply atan_tan; lra).
    assert (U : atan (a * tan h) <= atan (- tan h)) by (apply atan_le; nra).
    assert (L : atan (tan h) <= atan (a * tan h)) by (apply atan_le; nra).
    rewrite atan_opp in U. rewrite E in *. rabs.
  - rewrite tan_0, Rmult_0_r, atan_0. lra.
  - assert (HT : 0 < tan h) by (apply tan_gt_0; lra).
    assert (E : atan (tan h) = h) by (apply atan_tan; lra).
    assert (U : atan (a * tan h) <= atan (tan h)) by (apply atan_le; nra).
    assert (L : atan (- tan h) <= atan (a * tan h)) by (apply atan_le; nra).
    rewrite atan_opp in L. rewrite E in *. rabs.
Qed.

Lemma acos_cos_abs (h : R) : - PI <= h <= PI -> acos (cos h) = Rabs h.
Proof.
  intros Hh. destruct (Rle_lt_dec 0 h) as [H | H].
  - rewrite Rabs_right by lra. apply acos_cos. lra.
  - rewrite Rabs_left by lra. rewrite <- cos_neg. apply acos_cos. lra.
Qed.

Lemma Rabs_copysign (x y : R) : Rabs (math_copysign x y) = Rabs x.
Proof.
  unfold math_copysign. destruct (Rleb 0 y).
  - apply Rabs_Rabsolu.
  - rewrite Rabs_Ropp. apply Rabs_Rabsolu.
Qed.

(** For an angle within [ATOL] of zero the three decomposition angles are
    within [ATOL] of zero as well. *)
Lemma aba_angles_small (a b alpha : R) :
  -1 <= a <= 1 -> Rabs alpha < ATOL ->
  exists theta1 theta2 theta3,
    aba_angles a b alpha = Ok (theta1, theta2, theta3) /\
    Rabs theta1 < ATOL /\ Rabs theta2 < ATOL /\ Rabs theta3 < ATOL.
Proof.
  intros Ha Halpha. pose proof PI_bounds as HPI. pose proof ATOL_pos as Hpos.
  assert (Hsmall : ATOL < 1) by (rewrite ATOL_val; lra).
  assert (Hh : Rabs (alpha / 2) < ATOL / 2) by (revert Halpha; rabs).
  assert (Hh' : - (PI / 2) < alpha / 2 < PI / 2) by (revert Hh; rabs).
  assert (Hcos : 0 < cos (alpha / 2)) by (apply cos_gt_0; lra).
  pose proof (COS_bound (alpha / 2)) as Hcb.
  unfold aba_angles.
  replace (Rltb (Rabs (alpha - PI)) ATOL) with false
    by (symmetry; apply Rltb_false; revert Halpha; rabs).
  set (T := a * tan (alpha / 2)).
  assert (Hroot : 1 <= sqrt (1 + T ^ 2)).
  { rewrite <- sqrt_1 at 1. apply sqrt_le_1; nra. }
  rewrite math_sqrt_ok by nra. cbn [rbind].
  set (u := clamp_unit (cos (alpha / 2) * sqrt (1 + T ^ 2))).
  assert (Hu : cos (alpha / 2) <= u <= 1).
  { pose proof (clamp_unit_bounds (cos (alpha / 2) * sqrt (1 + T ^ 2))) as B.
    fold u in B. split; [|lra]. subst u.
    unfold clamp_unit, Rmax, Rmin.
    destruct (Rle_dec _ 1); destruct (Rle_dec _ (-1)); nra. }
  rewrite math_acos_ok by lra. cbn [rbind].
  assert (Hacos : 0 <= acos u <= Rabs (alpha / 2)).
  { split; [apply acos_bound|].
    rewrite <- acos_cos_abs by lra. apply acos_le; lra. }
  set (theta2 := math_copysign (2 * acos u) alpha).
  assert (Ht2 : Rabs theta2 <= 2 * Rabs (alpha / 2)).
  { subst theta2. rewrite Rabs_copysign. rewrite Rabs_right; lra. }
  assert (Hsin : Rabs (sin (theta2 / 2)) < ATOL).
  { apply Rle_lt_trans with (Rabs (theta2 / 2)).
    - apply Rabs_sin_le. revert Ht2 Hh. rabs.
    - revert Ht2 Hh. rabs. }
  apply Rltb_true in Hsin. rewrite Hsin. cbn [rbind].
  rewrite math_atan2_pos_x by exact Hcos.
  assert (E : a * sin (alpha / 2) / cos (alpha / 2) = T).
  { subst T. unfold tan. field. lra. }
  rewrite E.
  pose proof (atan_scaled_tan_bound a (alpha / 2) Ha Hh') as Hp. fold T in Hp.
  do 3 eexists. split; [reflexivity|].
  revert Hp Ht2 Hh. generalize (atan T). intros. repeat split; rabs.
Qed.

(** An angle already in [(-pi, pi]] is its own normal form. *)
Lemma normalize_angle_id (x : R) : - PI < x <= PI -> normalize_angle x = x.
Proof.
  intros Hx. pose proof PI_bounds as HPI. unfold normalize_angle.
  assert (Hup : up ((PI - x) / (2 * PI)) = 1%Z).
  { symmetry. apply tech_up.
    - apply Rmult_lt_reg_r with (2 * PI); [lra|].
      unfold Rdiv. rewrite Rmult_assoc, Rinv_l by lra. lra.
    - apply Rmult_le_reg_r with (2 * PI); [lra|].
      rewrite Rmult_plus_distr_r.
      unfold Rdiv. rewrite Rmult_assoc, Rinv_l by lra. lra. }
  rewrite Hup. change (1 - 1)%Z with 0%Z. lra.
Qed.

Lemma normalize_angle_small (x : R) : Rabs x < ATOL -> normalize_angle x = x.
Proof.
  intros H. apply normalize_angle_id. pose proof PI_bounds.
  rewrite ATOL_val in H. revert H. rabs.
Qed.

(** A native rotation by an angle within [ATOL] of zero is an identity. *)
Lemma native_call_small (r : NativeRotation) (q : Qubit) (theta : R) :
  Rabs theta < ATOL ->
  exists g, native_call r q (Float theta) = Ok g /\ Gate_is_identity g = true.
Proof.
  intros H.
  assert (H0 : Rabs 0 < ATOL) by (rewrite Rabs_R0; apply ATOL_pos).
  destruct r; eexists; (split; [reflexivity|]);
    cbn [Gate_is_identity set_arguments set_generator Gate_meta
         Gate_set_arguments Gate_set_generator bsr_angle bsr_phase];
    unfold BlochSphereRotation_is_identity; cbn [bsr_angle bsr_phase];
    rewrite (normalize_angle_small theta H), (normalize_angle_small 0 H0);
    apply andb_true_iff; split; apply Rltb_true; assumption.
Qed.

Lemma decompose_identity (d : ABADecomposer) (r : BlochSphereRotation) :
  Axis_is_unit (bsr_axis r) ->
  BlochSphereRotation_is_identity r = true ->
  decompose d (GBloch r) = Ok [].
Proof.
  intros Hu Hid. unfold BlochSphereRotation_is_identity in Hid.
  apply andb_true_iff in Hid. destruct Hid as [Hangle _].
  apply Rltb_true in Hangle.
  pose proof (unit_components d (bsr_axis r) Hu) as Hab.
  assert (Ha : -1 <= component_a d (bsr_axis r) <= 1) by nra.
  assert (Hacc : angle_accepted (bsr_angle r)).
  { unfold angle_accepted. pose proof PI_bounds.
    rewrite ATOL_val in *. revert Hangle. rabs. }
  destruct (aba_angles_small _ (component_b d (bsr_axis r)) _ Ha Hangle)
    as (t1 & t2 & t3 & Hang & H1 & H2 & H3).
  unfold decompose.
  rewrite get_decomposition_angles_accepts by exact Hacc.
  rewrite Hang. cbn [rbind].
  destruct (native_call_small (ra d) (bsr_qubit r) t1 H1) as (g1 & -> & I1).
  destruct (native_call_small (rb d) (bsr_qubit r) t2 H2) as (g2 & -> & I2).
  destruct (native_call_small (ra d) (bsr_qubit r) t3 H3) as (g3 & -> & I3).
  cbn [rbind]. unfold filter_out_identities. cbn [List.filter].
  rewrite I1, I2, I3. reflexivity.
Qed.

(** C8: through every ABA decomposer, a rotation about a unit axis whose
    angle and phase are within [ATOL] of zero (an identity rotation for
    [is_identity]) decomposes to the empty list, and a gate that is not a
    BlochSphereRotation is returned unchanged as a one-element list. *)
Theorem decompose_identity_and_passthrough (d : ABADecomposer) :
  (forall r : BlochSphereRotation,
     Axis_is_unit (bsr_axis r) ->
     Rabs (bsr_angle r) < ATOL -> Rabs (bsr_phase r) < ATOL ->
     decompose d (GBloch r) = Ok []) /\
  (forall m : MatrixGate, decompose d (GMatrix m) = Ok [GMatrix m]) /\
  (forall generator arguments control_qubit target_gate,
     decompose d (GControlled generator arguments control_qubit target_gate) =
     Ok [GControlled generator arguments control_qubit target_gate]).
Proof.
  repeat split.
  intros r Hu Ha Hp. apply decompose_identity; [exact Hu|].
  unfold BlochSphereRotation_is_identity.
  apply andb_true_iff; split; apply Rltb_true; assumption.
Qed.

(** C8 at [BlochSphereRotation.identity(Qubit(0))] and the Z-Y-Z decomposer. *)
Lemma decompose_identity_and_passthrough_witness :
  decompose ZYZDecomposer (GBloch identity_rotation) = Ok [].
Proof.
  apply (proj1 (decompose_identity_and_passthrough ZYZDecomposer)).
  - exact axis_e1_unit.
  - cbn [identity_rotation bsr_angle]. rewrite Rabs_R0. apply ATOL_pos.
  - cbn [identity_rotation bsr_phase]. rewrite Rabs_R0. apply ATOL_pos.
Defined.

(* ===================================================================== *)
(** * Axis construction                                                    *)
(* ===================================================================== *)


Lemma np_linalg_norm_3 (x y z : R) :
  np_linalg_norm [x; y; z] = sqrt (x * x + (y * y + (z * z + 0))).
Proof. reflexivity. Qed.

(* ===================================================================== *)
(** * Qubit operands                                                       *)
(* ===================================================================== *)

Lemma not_NoDup_positions (qubits : list Qubit) :
  ~ NoDup qubits ->
  exists (i j : nat) (q : Qubit),
    i <> j /\ qubits !! i = Some q /\ qubits !! j = Some q.
Proof.
  induction qubits as [|x l IH]; intros H.
  - exfalso. apply H. constructor.
  - destruct (decide (x ∈ l)) as [Hin | Hnin].
    + apply list_elem_of_lookup in Hin. destruct Hin as [k Hk].
      exists 0%nat, (S k), x. repeat split; [lia | exact Hk].
    + destruct IH as (i & j & q & Hne & Hi & Hj).
      { intros Hl. apply H. constructor; assumption. }
      exists (S i), (S j), q. repeat split; [lia | exact Hi | exact Hj].
Qed.

(** X4: [_check_repeated_qubit_operands] answers [True] exactly when some
    qubit occurs at two different positions of the list. *)
Theorem check_repeated_qubit_operands_iff (qubits : list Qubit) :
  check_repeated_qubit_operands qubits = true <->
  exists (i j : nat) (q : Qubit),
    i <> j /\ qubits !! i = Some q /\ qubits !! j = Some q.
Proof.
  rewrite check_repeated_qubit_operands_spec. split.
  - apply not_NoDup_positions.
  - intros (i & j & q & Hne & Hi & Hj) H. apply Hne.
    rewrite NoDup_alt in H. eapply H; eauto.
Qed.

Lemma check_repeated_qubit_operands_false (qubits : list Qubit) :
  check_repeated_qubit_operands qubits = false <-> NoDup qubits.
Proof.
  split.
  - intros H. destruct (decide (NoDup qubits)) as [Hn | Hn]; [exact Hn|].
    apply check_repeated_qubit_operands_spec in Hn. congruence.
  - intros H. destruct (check_repeated_qubit_operands qubits) eqn:E;
      [|reflexivity].
    apply check_repeated_qubit_operands_spec in E. contradiction.
Qed.

Lemma ControlledGate_init_cases (control_qubit : Qubit) (target_gate : Gate)
    (generator : option (Generator Gate))
    (arguments : option (list Expression)) :
  (NoDup (control_qubit :: get_qubit_operands target_gate) /\
   ControlledGate_init control_qubit target_gate generator arguments =
   Ok (GControlled generator arguments control_qubit target_gate)) \/
  (~ NoDup (control_qubit :: get_qubit_operands target_gate) /\
   ControlledGate_init control_qubit target_gate generator arguments =
   Raise DuplicateOperand).
Proof.
  unfold ControlledGate_init.
  destruct (check_repeated_qubit_operands _) eqn:E.
  - right. split; [|reflexivity].
    apply check_repeated_qubit_operands_spec, E.
  - left. split; [|reflexivity].
    apply check_repeated_qubit_operands_false, E.
Qed.

(** X5: ControlledGate construction raises exactly when the control qubit
    is one of the qubits of the target gate or the target gate itself
    repeats a qubit, the error being the one of a repeated operand;
    otherwise it returns the gate that stores the control and the target,
    and whose qubit operands are the control followed by the operands of
    the target. *)
Theorem ControlledGate_init_spec (control_qubit : Qubit) (target_gate : Gate)
    (generator : option (Generator Gate))
    (arguments : option (list Expression)) :
  let construction :=
    ControlledGate_init control_qubit target_gate generator arguments in
  let clash := control_qubit ∈ get_qubit_operands target_gate \/
               ~ NoDup (get_qubit_operands target_gate) in
  (raises construction <-> clash) /\
  (clash -> construction = Raise DuplicateOperand) /\
  (~ clash ->
   construction =
     Ok (GControlled generator arguments control_qubit target_gate) /\
   get_qubit_operands
     (GControlled generator arguments control_qubit target_gate) =
   control_qubit :: get_qubit_operands target_gate).
Proof.
  cbv zeta.
  assert (Hcl : ~ NoDup (control_qubit :: get_qubit_operands target_gate) <->
                control_qubit ∈ get_qubit_operands target_gate \/
                ~ NoDup (get_qubit_operands target_gate)).
  { rewrite NoDup_cons. split.
    - intros H.
      destruct (decide (control_qubit ∈ get_qubit_operands target_gate));
        [left; assumption|].
      right. intros Hn. apply H. split; assumption.
    - intros [H | H] [H1 H2]; contradiction. }
  destruct (ControlledGate_init_cases control_qubit target_gate generator
              arguments) as [[Hn ->] | [Hn ->]].
  - split; [|split].
    + split; [intros [e He]; discriminate|].
      intros Hc. apply Hcl in Hc. contradiction.
    + intros Hc. apply Hcl in Hc. contradiction.
    + intros _. split; reflexivity.
  - split; [|split].
    + split; [intros _; apply Hcl, Hn|].
      intros _. eexists. reflexivity.
    + intros _. reflexivity.
    + intros Hc. exfalso. apply Hc, Hcl, Hn.
Qed.

(** X6: the qubit operands of every gate that the constructors return are
    pairwise distinct, however deeply controls are nested. *)
Theorem constructed_gate_operands_NoDup (g : Gate) :
  Gate_constructed g -> NoDup (get_qubit_operands g).
Proof.
  induction 1 as [q ax an ph gen args r Hr
                 | mat ops gen args m Hm
                 | c t gen args g Ht IH Hg].
  - cbn. apply NoDup_singleton.
  - unfold MatrixGate_init in Hm.
    destruct (length ops <? 2)%nat; [discriminate|].
    destruct (check_repeated_qubit_operands ops) eqn:E; [discriminate|].
    destruct (negb _); [discriminate|].
    injection Hm as <-. cbn. apply check_repeated_qubit_operands_false, E.
  - destruct (ControlledGate_init_cases c t gen args) as [[Hn He] | [Hn He]];
      rewrite He in Hg; [|discriminate].
    injection Hg as <-. exact Hn.
Qed.

(** X6 at a doubly controlled rotation on qubits 2, 1 and 0. *)
Lemma constructed_gate_operands_NoDup_witness :
  NoDup (get_qubit_operands
           (GControlled None None (mkQubit 2)
              (GControlled None None (mkQubit 1)
                 (GBloch identity_rotation)))).
Proof.
  apply constructed_gate_operands_NoDup.
  apply (constructed_controlled (mkQubit 2)
           (GControlled None None (mkQubit 1) (GBloch identity_rotation))
           None None); [|reflexivity].
  apply (constructed_controlled (mkQubit 1) (GBloch identity_rotation)
           None None); [|reflexivity].
  apply (constructed_rotation (mkQubit 0) (AxisLike_axis axis_e1) 0 0
           None None).
  unfold BlochSphereRotation_init. cbn [Axis_init
    Axis_parse_and_validate_axislike rbind].
  unfold identity_rotation.
  rewrite normalize_angle_small by (rewrite Rabs_R0; apply ATOL_pos).
  reflexivity.
Defined.

(* ===================================================================== *)
(** * The named wrappers: metadata and failure                             *)
(* ===================================================================== *)

Lemma bind_arguments_length {V : Type} (params : list (Param V))
    (args : list V) (kwargs : gmap string V) (bound : list V) :
  bind_arguments params args kwargs = Ok bound ->
  length bound = length params.
Proof.
  unfold bind_arguments. case_bool_decide; [|discriminate].
  apply bind_params_length.
Qed.

(** X7: a node returned by a named wrapper is never anonymous or abstract:
    its arguments are set and hold exactly one value per declared
    parameter of the generator, and a measurement or reset takes the name
    of its generator. *)
Theorem named_node_metadata :
  (forall (g : Generator Gate) args kwargs n,
     named_gate g args kwargs = Ok n ->
     Gate_is_anonymous n = false /\
     exists a, Gate_arguments n = Some a /\
               length a = length (gen_params g)) /\
  (forall (g : Generator Measure) args kwargs n,
     named_measurement g args kwargs = Ok n ->
     Measure_is_abstract n = false /\ Measure_name n = gen_name g /\
     exists a, measure_arguments n = Some a /\
               length a = length (gen_params g)) /\
  (forall (g : Generator Reset) args kwargs n,
     named_reset g args kwargs = Ok n ->
     Reset_is_abstract n = false /\ Reset_name n = gen_name g /\
     exists a, reset_arguments n = Some a /\
               length a = length (gen_params g)).
Proof.
  unfold named_gate, named_measurement, named_reset.
  split; [|split]; intros g args kwargs n Hn;
    destruct (named_callable_inv g args kwargs n Hn)
      as (bound & built & Hb & _ & ->);
    apply bind_arguments_length in Hb.
  - split; [destruct built; reflexivity|].
    exists bound. split; [destruct built; reflexivity | exact Hb].
  - split; [reflexivity|]. split; [reflexivity|].
    exists bound. split; [reflexivity | exact Hb].
  - split; [reflexivity|]. split; [reflexivity|].
    exists bound. split; [reflexivity | exact Hb].
Qed.

Lemma named_node_metadata_witness :
  exists n,
    named_gate Rx_fn [EQubit q0] {["theta" := Float 1]} = Ok n /\
    Gate_is_anonymous n = false.
Proof.
  eexists. split; [reflexivity|].
  apply (proj1 named_node_metadata Rx_fn [EQubit q0] {["theta" := Float 1]}).
  reflexivity.
Defined.

Section Loop.
Context {V : Type}.
Implicit Types (params : list (Param V)) (args : list V)
               (kwargs : gmap string V).

(** The loop of the wrappers succeeds exactly when the positional
    arguments from [arg_index] on are at least as many as the parameters
    that are not passed by keyword; when it fails, it fails with the
    [IndexError] of [args[arg_index]]. *)
Lemma collect_all_args_cases params : forall args kwargs i,
  (i <= length args)%nat ->
  ((positional_parameters params kwargs + i <= length args)%nat /\
   exists ws, collect_all_args params args kwargs i = Ok ws) \/
  ((length args < positional_parameters params kwargs + i)%nat /\
   collect_all_args params args kwargs i = Raise tuple_index_out_of_range).
Proof.
  unfold positional_parameters.
  induction params as [|p ps IH]; intros args kwargs i Hi;
    cbn [collect_all_args List.filter].
  - left. cbn. split; [lia | eauto].
  - destruct (kwargs !! par_name p) as [v|] eqn:Hk.
    + destruct (IH args kwargs i Hi) as [[Hle [ws ->]] | [Hlt ->]].
      * left. split; [exact Hle | cbn; eauto].
      * right. split; [exact Hlt | reflexivity].
    + cbn [length]. destruct (args !! i) as [v|] eqn:Ha.
      * apply lookup_lt_Some in Ha.
        destruct (IH args kwargs (S i) ltac:(lia)) as [[Hle [ws ->]] | [Hlt ->]].
        -- left. split; [lia | cbn; eauto].
        -- right. split; [lia | reflexivity].
      * apply lookup_ge_None in Ha. right. split; [lia | reflexivity].
Qed.
End Loop.

(** X8: what a call through a named wrapper comes to.  An error of the
    generator is passed on unchanged.  When the generator returns, the
    wrapper returns its node exactly when the call has at least as many
    positional arguments as there are parameters not passed by keyword; in
    the other case, which is the one of a parameter left to its default,
    the wrapper raises [IndexError] although the generator succeeded. *)
Theorem named_callable_outcome {N : Type} `{NodeMeta N} (g : Generator N)
    (args : list Expression) (kwargs : gmap string Expression) :
  (forall e, call_generator g args kwargs = Raise e ->
     named_callable g args kwargs = Raise e) /\
  (forall built, call_generator g args kwargs = Ok built ->
     ((length args < positional_parameters (gen_params g) kwargs)%nat ->
      named_callable g args kwargs = Raise tuple_index_out_of_range) /\
     ((positional_parameters (gen_params g) kwargs <= length args)%nat ->
      exists all_args,
        named_callable g args kwargs =
        Ok (set_arguments (set_generator built (Some g)) (Some all_args)))).
Proof.
  unfold named_callable. split.
  - intros e ->. reflexivity.
  - intros built ->. cbn [rbind].
    destruct (collect_all_args_cases (gen_params g) args kwargs 0 ltac:(lia))
      as [[Hle [ws ->]] | [Hlt ->]]; cbn [rbind]; split; intros Hc;
      try lia; eauto.
Qed.

(** X8 at [reset_n(q0)], which leaves [n] to its default. *)
Lemma named_callable_outcome_witness :
  call_generator reset_n_fn [EQubit q0] ∅ = Ok (mkReset None None q0) /\
  named_reset reset_n_fn [EQubit q0] ∅ = Raise tuple_index_out_of_range.
Proof.
  split; [reflexivity|].
  apply (proj2 (named_callable_outcome reset_n_fn [EQubit q0] ∅)
           (mkReset None None q0)); [reflexivity|].
  vm_compute. lia.
Defined.

(* ===================================================================== *)
(** * Bounds on the returned angles                                        *)
(* ===================================================================== *)

Lemma math_acos_bound (x y : R) : math_acos x = Ok y -> 0 <= y <= PI.
Proof.
  unfold math_acos. destruct (_ && _); [|discriminate].
  intros [= <-]. apply acos_bound.
Qed.

Lemma math_atan2_bound (y x : R) : - PI <= math_atan2 y x <= PI.
Proof.
  pose proof PI_bounds as HPI. pose proof (atan_bound (y / x)) as Hb.
  unfold math_atan2.
  destruct (Rltb 0 x) eqn:Hx; [lra|].
  destruct (Rltb x 0) eqn:Hx'.
  - apply Rltb_true in Hx'.
    destruct (Rleb 0 y) eqn:Hy.
    + apply Rleb_true in Hy.
      assert (Hq : y / x <= 0).
      { unfold Rdiv. assert (/ x < 0) by (apply Rinv_lt_0_compat; lra). nra. }
      pose proof (atan_le _ _ Hq) as Ha. rewrite atan_0 in Ha. lra.
    + apply Rleb_false in Hy.
      assert (Hq : 0 <= y / x).
      { unfold Rdiv. assert (/ x < 0) by (apply Rinv_lt_0_compat; lra). nra. }
      pose proof (atan_le _ _ Hq) as Ha. rewrite atan_0 in Ha. lra.
  - destruct (Rltb 0 y); [lra|]. destruct (Rltb y 0); lra.
Qed.

Lemma aba_angles_bounds (a b alpha theta1 theta2 theta3 : R) :
  aba_angles a b alpha = Ok (theta1, theta2, theta3) ->
  Rabs theta1 <= 2 * PI /\ Rabs theta2 <= 2 * PI /\ Rabs theta3 <= 2 * PI.
Proof.
  pose proof PI_bounds as HPI. unfold aba_angles.
  destruct (Rltb (Rabs (alpha - PI)) ATOL).
  - destruct (Rltb (Rabs a) ATOL).
    + destruct (math_acos b) as [y|] eqn:E; [|discriminate].
      apply math_acos_bound in E. cbn [rbind]. intros [= <- <- <-].
      repeat split; rabs.
    + destruct (math_acos a) as [y|] eqn:E; [|discriminate].
      apply math_acos_bound in E. cbn [rbind].
      destruct (_ || _).
      * cbn [rbind]. intros [= <- <- <-]. repeat split; rabs.
      * destruct (math_sqrt _) as [s|]; [|discriminate]. cbn [rbind].
        destruct (math_acos _) as [y'|] eqn:E'; [|discriminate].
        apply math_acos_bound in E'. cbn [rbind]. intros [= <- <- <-].
        repeat split; rabs.
  - destruct (math_sqrt _) as [s|]; [|discriminate]. cbn [rbind].
    destruct (math_acos _) as [y|] eqn:E; [|discriminate].
    apply math_acos_bound in E. cbn [rbind].
    pose proof (math_atan2_bound (a * sin (alpha / 2)) (cos (alpha / 2)))
      as Hp.
    set (p := math_atan2 _ _) in *.
    pose proof (Rabs_copysign (2 * y) alpha) as Hc.
    rewrite (Rabs_right (2 * y)) in Hc by lra.
    set (t2 := math_copysign (2 * y) alpha) in *.
    destruct (Rltb _ ATOL).
    + cbn [rbind]. intros [= <- <- <-]. clearbody p t2.
      repeat split; try lra; revert Hp; rabs.
    + destruct (math_acos _) as [y'|] eqn:E'; [|discriminate].
      apply math_acos_bound in E'. cbn [rbind]. intros [= <- <- <-].
      clearbody p t2. repeat split; try lra; revert Hp; rabs.
Qed.

(** X10: whenever [get_decomposition_angles] returns, each of the three
    angles lies in [[-2 pi, 2 pi]]; the angles are not brought back into
    [(-pi, pi]]. *)
Theorem get_decomposition_angles_bounds (d : ABADecomposer) (alpha : R)
    (axis : Axis) (theta1 theta2 theta3 : R) :
  get_decomposition_angles d alpha (AxisLike_axis axis) =
    Ok (theta1, theta2, theta3) ->
  Rabs theta1 <= 2 * PI /\ Rabs theta2 <= 2 * PI /\ Rabs theta3 <= 2 * PI.
Proof.
  rewrite get_decomposition_angles_unfold.
  destruct (negb _); [discriminate|]. apply aba_angles_bounds.
Qed.

Lemma get_decomposition_angles_bounds_witness :
  Rabs (PI / 2) <= 2 * PI /\ Rabs (PI / 2) <= 2 * PI /\
  Rabs (- (PI / 2)) <= 2 * PI.
Proof.
  apply (get_decomposition_angles_bounds ZYZDecomposer (PI / 2) axis_e1).
  rewrite get_decomposition_angles_accepts by exact angle_accepted_quarter.
  exact aba_angles_quarter_turn.
Defined.

(* ===================================================================== *)
(** * The output of [decompose]                                            *)
(* ===================================================================== *)

(** Calling [Rx], [Ry] or [Rz] on a qubit and a float never fails. *)
Lemma native_call_ok (n : NativeRotation) (q : Qubit) (theta : R) :
  exists r : BlochSphereRotation,
    native_call n q (Float theta) = Ok (GBloch r) /\
    bsr_qubit r = q /\
    bsr_generator r = Some (native_generator n) /\
    bsr_arguments r = Some [EQubit q; Float theta].
Proof. destruct n; eexists; (split; [reflexivity|]); repeat split. Qed.

Lemma decompose_rejects (d : ABADecomposer) (r : BlochSphereRotation) :
  ~ angle_accepted (bsr_angle r) ->
  decompose d (GBloch r) = Raise UnnormalizedAngle.
Proof.
  intros H. unfold decompose.
  rewrite get_decomposition_angles_rejects by exact H. reflexivity.
Qed.

Lemma native_rotation_on_intro (d : ABADecomposer) (q : Qubit)
    (n : NativeRotation) (r : BlochSphereRotation) (a : list Expression) :
  n = ra d \/ n = rb d ->
  bsr_qubit r = q ->
  bsr_generator r = Some (native_generator n) ->
  bsr_arguments r = Some a ->
  Gate_is_identity (GBloch r) = false ->
  native_rotation_on d q (GBloch r).
Proof.
  intros Hn Hq Hg Ha Hi. exists r, n. repeat split; try assumption.
  unfold Gate_is_anonymous. cbn [Gate_arguments]. rewrite Ha. reflexivity.
Qed.

(** Whatever angles come back, the three native calls succeed and the
    gates that stay are rotations of the same qubit. *)
Lemma decompose_returns (d : ABADecomposer) (r : BlochSphereRotation)
    (theta : R * R * R) :
  get_decomposition_angles d (bsr_angle r) (AxisLike_axis (bsr_axis r)) =
    Ok theta ->
  exists gates,
    decompose d (GBloch r) = Ok gates /\
    (length gates <= 3)%nat /\
    Forall (native_rotation_on d (bsr_qubit r)) gates.
Proof.
  destruct theta as [[t1 t2] t3]. intros Hang.
  unfold decompose. rewrite Hang. cbn [rbind].
  destruct (native_call_ok (ra d) (bsr_qubit r) t1) as (r1 & -> & Q1 & G1 & A1).
  destruct (native_call_ok (rb d) (bsr_qubit r) t2) as (r2 & -> & Q2 & G2 & A2).
  destruct (native_call_ok (ra d) (bsr_qubit r) t3) as (r3 & -> & Q3 & G3 & A3).
  cbn [rbind]. eexists. split; [reflexivity|].
  unfold filter_out_identities. cbn [List.filter].
  pose proof (fun H => native_rotation_on_intro d _ (ra d) r1 _
                         (or_introl eq_refl) Q1 G1 A1 H) as N1.
  pose proof (fun H => native_rotation_on_intro d _ (rb d) r2 _
                         (or_intror eq_refl) Q2 G2 A2 H) as N2.
  pose proof (fun H => native_rotation_on_intro d _ (ra d) r3 _
                         (or_introl eq_refl) Q3 G3 A3 H) as N3.
  destruct (Gate_is_identity (GBloch r1));
    destruct (Gate_is_identity (GBloch r2));
    destruct (Gate_is_identity (GBloch r3));
    cbn [negb length]; (split; [lia|]);
    repeat (apply List.Forall_cons; [auto|]); apply List.Forall_nil.
Qed.

Lemma decompose_raises (d : ABADecomposer) (r : BlochSphereRotation)
    (e : exn) :
  get_decomposition_angles d (bsr_angle r) (AxisLike_axis (bsr_axis r)) =
    Raise e ->
  decompose d (GBloch r) = Raise e.
Proof. intros H. unfold decompose. rewrite H. reflexivity. Qed.

(** X11: what [decompose] does with a rotation.  An error of
    [get_decomposition_angles] is passed on unchanged, so that [decompose]
    raises the error of the guard exactly when the stored angle fails
    [-pi + ATOL < angle <= pi + ATOL].  Whenever the angles come back,
    [decompose] returns at most three gates, each of them a rotation of the
    same qubit that is not an identity and that is named after one of the
    two native rotations of the decomposer.  For a unit axis and an angle
    that passes the guard and is not within [ATOL] of [pi], it does
    return. *)
Theorem decompose_rotation_spec (d : ABADecomposer) (r : BlochSphereRotation) :
  let angles :=
    get_decomposition_angles d (bsr_angle r) (AxisLike_axis (bsr_axis r)) in
  (forall e, angles = Raise e -> decompose d (GBloch r) = Raise e) /\
  (forall theta, angles = Ok theta ->
     exists gates,
       decompose d (GBloch r) = Ok gates /\
       (length gates <= 3)%nat /\
       Forall (native_rotation_on d (bsr_qubit r)) gates) /\
  (decompose d (GBloch r) = Raise UnnormalizedAngle <->
   ~ angle_accepted (bsr_angle r)) /\
  (Axis_is_unit (bsr_axis r) -> angle_accepted (bsr_angle r) ->
   ATOL <= Rabs (bsr_angle r - PI) ->
   returns (decompose d (GBloch r))).
Proof.
  cbv zeta. split; [|split; [|split; [split|]]].
  - apply decompose_raises.
  - apply decompose_returns.
  - intros He Hacc.
    destruct (get_decomposition_angles d (bsr_angle r)
                (AxisLike_axis (bsr_axis r))) as [theta|e] eqn:Hang.
    + destruct (decompose_returns d r theta Hang) as (gates & Hg & _).
      rewrite Hg in He. discriminate He.
    + rewrite (decompose_raises d r e Hang) in He. injection He as ->.
      rewrite get_decomposition_angles_accepts in Hang by exact Hacc.
      apply aba_angles_error in Hang. discriminate Hang.
  - apply decompose_rejects.
  - intros _ Hacc Hg.
    destruct (aba_angles_returns_general (component_a d (bsr_axis r))
                (component_b d (bsr_axis r)) (bsr_angle r) Hg) as [theta Hang].
    rewrite <- get_decomposition_angles_accepts in Hang by exact Hacc.
    destruct (decompose_returns d r theta Hang) as (gates & Hgates & _).
    exists gates. exact Hgates.
Qed.

(** X13: [BlochSphereRotation.identity] never fails, and the rotation it
    returns acts on the given qubit, passes [is_identity], and is erased by
    every decomposer. *)
Theorem BlochSphereRotation_identity_spec (q : Qubit) :
  exists r,
    BlochSphereRotation_identity q = Ok r /\
    bsr_qubit r = q /\
    BlochSphereRotation_is_identity r = true /\
    forall d, decompose d (GBloch r) = Ok [].
Proof.
  eexists. split; [reflexivity|].
  assert (Hn : np_linalg_norm [1; 0; 0] <> 0).
  { rewrite np_linalg_norm_3.
    replace (1 * 1 + (0 * 0 + (0 * 0 + 0))) with 1 by lra.
    rewrite sqrt_1. lra. }
  assert (H0 : Rabs 0 < ATOL) by (rewrite Rabs_R0; apply ATOL_pos).
  assert (Hid : BlochSphereRotation_is_identity
                  (mkBlochSphereRotation None None q
                     (mkAxis (1 / np_linalg_norm [1; 0; 0])
                        (0 / np_linalg_norm [1; 0; 0])
                        (0 / np_linalg_norm [1; 0; 0]))
                     (normalize_angle 0) (normalize_angle 0)) = true).
  { unfold BlochSphereRotation_is_identity. cbn [bsr_angle bsr_phase].
    rewrite (normalize_angle_small 0 H0).
    apply andb_true_iff; split; apply Rltb_true; exact H0. }
  split; [reflexivity|]. split; [exact Hid|].
  intros d. apply decompose_identity; [|exact Hid].
  cbn [bsr_axis]. eapply Axis_init_is_unit; [exact Hn|reflexivity].
Qed.

(* ===================================================================== *)
(** * Equality of nodes as a relation                                      *)
(* ===================================================================== *)

Lemma axis_e1_edge_unit : Axis_is_unit axis_e1_edge.
Proof.
  unfold Axis_is_unit, axis_e1_edge; cbn [axis_x axis_y axis_z]. field.
Qed.

Lemma np_allclose_e1_edge (atol : R) :
  atol = / 100000000 ->
  np_allclose np_default_rtol atol (Axis_value axis_e1)
    (Axis_value axis_e1_edge) = true.
Proof.
  intros ->. apply np_allclose_axis_value.
  unfold Axis_allclose, Axis_value, axis_e1, axis_e1_edge.
  cbn [axis_x axis_y axis_z]. rewrite np_default_rtol_val.
  repeat split; rabs.
Qed.

Lemma np_allclose_edge_e1 (atol : R) :
  atol = / 100000000 ->
  np_allclose np_default_rtol atol (Axis_value axis_e1_edge)
    (Axis_value axis_e1) = false.
Proof.
  intros ->. apply not_true_is_false. intros H.
  apply np_allclose_axis_value in H.
  unfold Axis_allclose, Axis_value, axis_e1, axis_e1_edge in H.
  cbn [axis_x axis_y axis_z] in H. rewrite np_default_rtol_val in H.
  destruct H as (_ & H & _). revert H. rabs.
Qed.

Lemma np_allclose_edge_minus_e1 :
  np_allclose np_default_rtol np_default_atol (Axis_value axis_e1_edge)
    (map Ropp (Axis_value axis_e1)) = false.
Proof.
  apply not_true_is_false. intros H.
  apply np_allclose_axis_opp in H.
  unfold Axis_allclose, Axis_value, axis_e1, axis_e1_edge in H.
  cbn [axis_x axis_y axis_z map] in H.
  rewrite np_default_rtol_val, np_default_atol_val in H.
  destruct H as (H & _). revert H. rabs.
Qed.

(** X14: [==] on rotations, measurements and resets holds between every
    node and itself, but on rotations and on measurements it is not
    symmetric, even among nodes with unit axes: the asymmetric relative
    term of [np.allclose] lets [a == b] hold while [b == a] fails. *)
Theorem node_equality_reflexive_not_symmetric :
  (forall r, BlochSphereRotation_eq r r = true) /\
  (forall m, Measure_eq m m = true) /\
  (forall s, Reset_eq s s = true) /\
  (exists r r',
     Axis_is_unit (bsr_axis r) /\ Axis_is_unit (bsr_axis r') /\
     BlochSphereRotation_eq r r' = true /\
     BlochSphereRotation_eq r' r = false) /\
  (exists m m',
     Axis_is_unit (measure_axis m) /\ Axis_is_unit (measure_axis m') /\
     Measure_eq m m' = true /\ Measure_eq m' m = false).
Proof.
  pose proof ATOL_pos as Hpos.
  split; [exact BlochSphereRotation_eq_refl|].
  split; [exact Measure_eq_refl|].
  split; [exact Reset_eq_refl|].
  split.
  - exists (unit_rotation axis_e1), (unit_rotation axis_e1_edge).
    split; [exact axis_e1_unit|]. split; [exact axis_e1_edge_unit|].
    unfold BlochSphereRotation_eq, unit_rotation.
    cbn [bsr_qubit bsr_axis bsr_angle bsr_phase].
    rewrite bool_decide_eq_true_2 by reflexivity. cbn [negb].
    rewrite !Rminus_diag, Rabs_R0.
    replace (Rltb ATOL 0) with false by (symmetry; apply Rltb_false; lra).
    rewrite (np_allclose_e1_edge _ np_default_atol_val).
    rewrite (np_allclose_edge_e1 _ np_default_atol_val).
    rewrite np_allclose_edge_minus_e1.
    split; [apply Rltb_true; lra|reflexivity].
  - exists (unit_measure axis_e1), (unit_measure axis_e1_edge).
    split; [exact axis_e1_unit|]. split; [exact axis_e1_edge_unit|].
    unfold Measure_eq, unit_measure. cbn [measure_qubit measure_axis].
    rewrite bool_decide_eq_true_2 by reflexivity.
    rewrite (np_allclose_e1_edge _ ATOL_val).
    rewrite (np_allclose_edge_e1 _ ATOL_val). split; reflexivity.
Qed.





(* ===================================================================== *)
(** * Matrix gates                                                         *)
(* ===================================================================== *)

Lemma np_allclose_complex_refl (rtol atol : R) (a : list (R * R)) :
  0 <= rtol -> 0 <= atol -> np_allclose_complex rtol atol a a = true.
Proof.
  intros Hr Ha. induction a as [|x a IH]; [reflexivity|].
  cbn [np_allclose_complex]. rewrite IH, andb_true_r.
  apply Rleb_true. unfold Cmod at 1, Cminus. cbn [fst snd].
  rewrite !Rminus_diag.
  replace (0 * 0 + 0 * 0) with 0 by lra. rewrite sqrt_0.
  assert (0 <= Cmod x) by (unfold Cmod; apply sqrt_pos). nra.
Qed.

Lemma shiftl_1_pow (k : nat) :
  Z.shiftl 1 (Z.of_nat k) = Z.of_nat (2 ^ k).
Proof.
  rewrite Z.shiftl_1_l, Nat2Z.inj_pow. reflexivity.
Qed.

(** X16: the constructor of matrix gates and [is_identity] agree on the
    size of the matrix: for every list of at least two distinct qubits,
    [np.eye(2 ** len(operands))] is accepted by the shape check written
    with [1 << len(operands)], and the gate built from it acts on these
    operands and is an identity. *)
Theorem MatrixGate_init_identity (operands : list Qubit) generator arguments :
  (2 <= length operands)%nat -> NoDup operands ->
  exists m,
    MatrixGate_init (np_eye (2 ^ length operands)) operands generator
      arguments = Ok m /\
    get_qubit_operands (GMatrix m) = operands /\
    Gate_is_identity (GMatrix m) = true.
Proof.
  intros Hlen Hnd. unfold MatrixGate_init.
  replace (length operands <? 2)%nat with false
    by (symmetry; apply Nat.ltb_ge; exact Hlen).
  rewrite (proj2 (check_repeated_qubit_operands_false operands) Hnd).
  rewrite bool_decide_eq_true_2
    by (unfold np_eye; cbn [nd_shape]; rewrite shiftl_1_pow; reflexivity).
  cbn [negb]. eexists. split; [reflexivity|]. split; [reflexivity|].
  cbn [Gate_is_identity mg_matrix mg_operands np_eye nd_data].
  apply np_allclose_complex_refl.
  - rewrite np_default_rtol_val. lra.
  - rewrite np_default_atol_val. lra.
Qed.

Lemma MatrixGate_init_identity_witness :
  exists m,
    MatrixGate_init (np_eye (2 ^ 2)) [mkQubit 0; mkQubit 1] None None = Ok m /\
    get_qubit_operands (GMatrix m) = [mkQubit 0; mkQubit 1] /\
    Gate_is_identity (GMatrix m) = true.
Proof.
  apply (MatrixGate_init_identity [mkQubit 0; mkQubit 1] None None).
  - cbn. lia.
  - apply NoDup_cons. split; [|apply NoDup_singleton].
    intros H. apply list_elem_of_singleton in H. discriminate.
Defined.

Ltac binary64_branches :=
  repeat match goal with
         | |- context [if ?c then _ else _] => destruct c; cbn [rbind negb]
         end.

Lemma binary64_get_decomposition_angles_cases (libm : Binary64.Libm)
    (d : ABADecomposer) (alpha : float) (axis : Binary64.Axis) :
  (Binary64.angle_accepted alpha = false /\
   Binary64.get_decomposition_angles libm d alpha axis =
   Raise UnnormalizedAngle) \/
  (Binary64.angle_accepted alpha = true /\
   (returns (Binary64.get_decomposition_angles libm d alpha axis) \/
    Binary64.get_decomposition_angles libm d alpha axis =
    Raise (ValueError "math domain error"))).
Proof.
  assert (Hinit : exists ia ib a b,
            ABADecomposer_init d = Ok (mkABAIndices ia ib) /\
            Binary64.Axis_getitem axis ia = Ok a /\
            Binary64.Axis_getitem axis ib = Ok b)
    by (destruct d, axis; do 4 eexists; repeat split; reflexivity).
  destruct Hinit as (ia & ib & a & b & Hinit & Ha & Hb).
  unfold Binary64.get_decomposition_angles,
    Binary64.get_decomposition_angles_at.
  rewrite Hinit. cbn [rbind index_a index_b].
  destruct (Binary64.angle_accepted alpha); [right|left];
    (split; [reflexivity|]); [|reflexivity].
  cbn [negb]. rewrite Ha, Hb. cbn [rbind].
  unfold Binary64.math_acos, Binary64.math_sqrt; cbv zeta.
  binary64_branches; unfold returns; eauto.
Qed.

(** X17: the engine in binary64 arithmetic, whatever the C library computes.
    [get_decomposition_angles] raises the error of the guard exactly when the
    guard [-math.pi + ATOL < alpha <= math.pi + ATOL] fails; every other
    error is a [math domain error]; and such an error does occur inside the
    guard: at [alpha = math.pi] and the stored axis with [axis[index_a]] 0.8
    and [axis[index_b]] 0.6 (for Z-Y-Z, the axis [(0, 0.6, 0.8)]) the
    quotient [0.6 / sqrt(1 - 0.8 ** 2)] is [1.0000000000000002] and its
    [acos], which is not clamped, raises. *)
Theorem binary64_get_decomposition_angles_errors (libm : Binary64.Libm)
    (d : ABADecomposer) :
  (forall alpha axis,
     Binary64.get_decomposition_angles libm d alpha axis =
       Raise UnnormalizedAngle <->
     Binary64.angle_accepted alpha = false) /\
  (forall alpha axis e,
     Binary64.get_decomposition_angles libm d alpha axis = Raise e ->
     e = UnnormalizedAngle \/ e = ValueError "math domain error") /\
  (Binary64.angle_accepted Binary64.math_pi = true /\
   Binary64.get_decomposition_angles libm d Binary64.math_pi
     (Binary64.axis_68 d) = Raise (ValueError "math domain error")).
Proof.
  split; [|split].
  - intros alpha axis.
    destruct (binary64_get_decomposition_angles_cases libm d alpha axis)
      as [[Hg ->] | [Hg [[t ->] | ->]]]; rewrite Hg;
      split; intros H; try reflexivity; discriminate.
  - intros alpha axis e.
    destruct (binary64_get_decomposition_angles_cases libm d alpha axis)
      as [[_ ->] | [_ [[t ->] | ->]]]; intros [= <-]; auto.
  - split; [reflexivity|]. destruct d; vm_compute; reflexivity.
Qed.
